(** * snmptools: printer polling over SNMP, rule matching and alert aggregation

    A shallow embedding of [snmplib.py], [printerpoller.py] and the rule
    check of [printercheck.py].

    - Python exceptions are an error monad ([result]).
    - Python floats are IEEE 754 binary64 values ([spec_float] at precision
      53), with round-to-nearest-even arithmetic.
    - Python dicts and object attribute tables are finite maps ([gmap]).
    - The duck-typed printer parts ([Supply], [Tray]) are instances of one
      interface, [SNMPWalkable]. *)

From Stdlib Require Import ZArith String Ascii List Lia Bool.
From Stdlib Require Import Sorting.Sorted Sorting.Permutation.
From Stdlib Require Import Floats.SpecFloat.
From stdpp Require Import base option list gmap strings pretty.

#[local] Set Warnings "-register-all".
Local Open Scope string_scope.
Local Open Scope Z_scope.

(** ** Python exceptions and fallible results *)

Inductive exn : Type :=
  | KeyError
  | TypeError
  | IndexError
  | ZeroDivisionError
  | OverflowError
  | EasySNMPConnectionError
  | OtherError (msg : string).

Inductive result (A : Type) : Type :=
  | Ok (a : A)
  | Raise (e : exn).
Arguments Ok {A} a.
Arguments Raise {A} e.

#[global] Instance result_ret : MRet result := fun A a => Ok a.
#[global] Instance result_bind : MBind result := fun A B f m =>
  match m with
  | Ok a => f a
  | Raise e => Raise e
  end.

Definition is_ok {A} (m : result A) : bool :=
  match m with Ok _ => true | Raise _ => false end.

(** ** Python strings: the [in] operator *)

(** [str_in sub s] is Python's [sub in s] on two strings. *)
Fixpoint str_in (sub s : string) : bool :=
  String.prefix sub s ||
  match s with
  | EmptyString => false
  | String _ s' => str_in sub s'
  end.

(** ** Python floats (binary64) *)

Module Float.
Definition prec : Z := 53.
Definition emax : Z := 1024.

(** [float(n)] for an int [n]: rounds to nearest-even, OverflowError when
    the int is too large for a double. *)
Definition of_int (n : Z) : result spec_float :=
  match binary_normalize prec emax n 0 false with
  | S754_infinity _ => Raise OverflowError
  | f => Ok f
  end.

Definition is_zero (f : spec_float) : bool :=
  match f with S754_zero _ => true | _ => false end.

(** [x / n] for a float [x] and an int [n]. *)
Definition div_int (x : spec_float) (n : Z) : result spec_float :=
  d ← of_int n;
  if is_zero d then Raise ZeroDivisionError
  else Ok (SFdiv prec emax x d).

(** [x * n] for a float [x] and an int [n]. *)
Definition mul_int (x : spec_float) (n : Z) : result spec_float :=
  d ← of_int n;
  Ok (SFmul prec emax x d).

(** [x >= y]. *)
Definition ge (x y : spec_float) : bool := SFleb y x.

(** Truth value of a float: false exactly for [0.0] and [-0.0]. *)
Definition truthy (x : spec_float) : bool := negb (is_zero x).
End Float.

(** ** Rules (class [Rule]) *)

(** A value of a rule's [match] section as the YAML loader delivers it: a
    string, a list, or anything else (number, boolean, null, mapping). *)
Inductive mval : Type :=
  | MStr (s : string)
  | MList (l : list mval)
  | MOther.

Record Rule : Type := {
  name : string;
  match_ : option (gmap string mval);   (* None when the rule has no [match] key *)
  stop : bool;
  threshold : option spec_float;        (* None, or float(data["threshold"]) *)
  status : option Z;                    (* None, or int(data["status"]) *)
  severity : Z                          (* 2, or int(data["severity"]) *)
}.

(** Truth value of [rule.threshold] and of [rule.status]: [None] and zero are
    false. *)
Definition threshold_truthy (r : Rule) : bool :=
  match threshold r with
  | None => false
  | Some t => Float.truthy t
  end.

Definition status_truthy (r : Rule) : bool :=
  match status r with
  | None => false
  | Some b => negb (b =? 0)
  end.

(** ** Printer parts (classes [SNMPWalkable], [Supply], [Tray]) *)

Class SNMPWalkable (A : Type) : Type := {
  get_name : A → string;
  get_type_str : A → result string;
  check : A → Rule → result bool
}.

Fixpoint dict_get {V} (d : list (Z * V)) (k : Z) : result V :=
  match d with
  | [] => Raise KeyError
  | (k', v) :: d' => if k' =? k then Ok v else dict_get d' k
  end.

Module Supply.
Record t : Type := {
  _class : Z;
  _type : Z;
  _name : string;
  _unit : Z;
  _capacity : Z;
  _level : Z
}.

Definition TYPES : list (Z * string) :=
  [(1, "other"); (2, "unknown"); (3, "toner"); (4, "wasteToner"); (5, "ink");
   (6, "inkCartridge"); (7, "inkRibbon"); (8, "wasteInk"); (9, "opc");
   (10, "developer"); (11, "fuserOil"); (12, "solidWax"); (13, "ribbonWax");
   (14, "wasteWax"); (15, "fuser"); (16, "coronaWire"); (17, "fuserOilWick");
   (18, "cleanerUnit"); (19, "fuserCleaningPad"); (20, "transferUnit");
   (21, "tonerCartridge"); (22, "fuserOiler"); (23, "water");
   (24, "wasteWater"); (25, "glueWaterAdditive"); (26, "wastePaper");
   (27, "bindingSupply"); (28, "bandingSupply"); (29, "stitchingWire");
   (30, "shrinkWrap"); (31, "paperWrap"); (32, "staples"); (33, "inserts");
   (34, "covers")].

Definition get_type_str (s : t) : result string := dict_get TYPES (_type s).

(** [(float(self._level) / self._capacity) * 100] *)
Definition percent (s : t) : result spec_float :=
  l ← Float.of_int (_level s);
  q ← Float.div_int l (_capacity s);
  Float.mul_int q 100.

Definition check (s : t) (rule : Rule) : result bool :=
  if _level s =? -3 then Ok true
  else if _level s =? -2 then Ok true
  else if negb (threshold_truthy rule) then Ok false
  else
    p ← percent s;
    match threshold rule with
    | Some th => Ok (Float.ge p th)
    | None => Ok false
    end.
End Supply.

Module Tray.
Record t : Type := {
  _level : Z;
  _status : Z;
  _paper : string;
  _name : string
}.

Definition get_type_str (tr : t) : result string := Ok "tray".

Definition check (tr : t) (rule : Rule) : result bool :=
  if negb (status_truthy rule) then Ok false
  else
    match status rule with
    | Some b => Ok (_status tr <=? b)
    | None => Ok false
    end.
End Tray.

#[global] Instance Supply_walkable : SNMPWalkable Supply.t := {
  get_name := Supply._name;
  get_type_str := Supply.get_type_str;
  check := Supply.check
}.

#[global] Instance Tray_walkable : SNMPWalkable Tray.t := {
  get_name := Tray._name;
  get_type_str := Tray.get_type_str;
  check := Tray.check
}.

(** ** Rule matching ([Rule.matches]) *)

(** [v in s] where [s] is a string: substring test for a string [v], TypeError
    for any other left operand. *)
Definition py_in (v : mval) (s : string) : result bool :=
  match v with
  | MStr sub => Ok (str_in sub s)
  | _ => Raise TypeError
  end.

(** [h in host] where [host] is a list and [h] a string: some element equals
    [h]. *)
Definition list_contains (h : string) (host : list mval) : bool :=
  existsb (fun v => match v with MStr s => String.eqb s h | _ => false end) host.

(** The list comprehension [[t in typ for t in match_typ]]: every element is
    evaluated. *)
Fixpoint comprehension (typ : string) (match_typ : list mval) : result (list bool) :=
  match match_typ with
  | [] => Ok []
  | t :: ts =>
      b ← py_in t typ;
      bs ← comprehension typ ts;
      Ok (b :: bs)
  end.

Definition any (bs : list bool) : bool := existsb id bs.

(** The [host] block of [matches]: false when the function returns [False]
    there. *)
Definition host_passes (m : gmap string mval) (h : string) : bool :=
  match m !! "host" with
  | Some (MStr host) => String.eqb host h
  | Some (MList host) => list_contains h host
  | Some MOther => true
  | None => true
  end.

Definition matches {A} `{SNMPWalkable A} (self : Rule) (o : A) (h : string) : result bool :=
  match match_ self with
  | None => Ok false
  | Some m =>
      if bool_decide (size m = 0%nat) then Ok false
      else if negb (host_passes m h) then Ok false
      else
        name_in ← match m !! "name" with
                  | Some v => py_in v (get_name o)
                  | None => Ok true
                  end;
        if negb name_in then Ok false
        else
          match m !! "type" with
          | Some match_typ =>
              typ ← get_type_str o;
              match match_typ with
              | MStr _ => py_in match_typ typ
              | MList l => bs ← comprehension typ l; Ok (any bs)
              | MOther => Ok true
              end
          | None => Ok true
          end
  end.

(** ** Rule evaluation ([apply_rules]) *)

Section ApplyRules.
Context {A : Type} `{SNMPWalkable A}.
Variable item : A.
Variable host : string.

(** The [for] loop of [apply_rules], from the running [status]. *)
Fixpoint apply_rules_from (status : Z) (rule_list : list Rule) : result Z :=
  match rule_list with
  | [] => Ok status
  | r :: rest =>
      m ← matches r item host;
      if (m : bool) then
        ok ← check item r;
        let status' :=
          if negb ok && (severity r >? status) then severity r else status in
        if stop r then Ok status' else apply_rules_from status' rest
      else apply_rules_from status rest
  end.

Definition apply_rules (rule_list : list Rule) : result Z :=
  apply_rules_from 0 rule_list.
End ApplyRules.

(** ** Self-reported severity ([PrinterInfo._get_max_severity_level]) *)

(** The body of the loop: [val = min(int(item.value), 4)], then the update of
    [m]. *)
Definition max_step (m : Z) (code : Z) : Z :=
  let val := Z.min code 4 in
  if val >? m then val else m.

(** [codes] are the values [int(item.value)] of the walked alarm entries. *)
Definition max_code (codes : list Z) : Z := fold_left max_step codes 0.

Definition _get_max_severity_level (codes : list Z) : Z :=
  let m := max_code codes in
  if m =? 4 then 1
  else if m =? 3 then 2
  else 0.

(** ** Stored records *)

(** Values of an [info] dict and of a part's attribute dict. [JParts] is a
    list of [(name, severity)] tuples. *)
Inductive jval : Type :=
  | JNone
  | JInt (z : Z)
  | JStr (s : string)
  | JParts (l : list (string * Z)).

(** Values of the [data] dict of a stored document: the [info] dict, or a
    list of part dicts ([supplies], [trays]). *)
Inductive dval : Type :=
  | DInfo (info : gmap string jval)
  | DParts (l : list (gmap string jval)).

(** A colour constant: a string, or the one-element tuple that a trailing
    comma makes of it. *)
Inductive pycolor : Type :=
  | ColorStr (s : string)
  | ColorTuple (s : string).

Module COLOR.
Definition HEADER_CRITICAL : string := "#DC143C".
Definition BLACK : pycolor := ColorTuple "#555555".
Definition CYAN : pycolor := ColorTuple "#00bfff".
Definition LIGHT_CYAN : pycolor := ColorTuple "#00ffff".
Definition MAGENTA : pycolor := ColorTuple "#D028A6".
Definition LIGHT_MAGENTA : pycolor := ColorTuple "#ee82ee".
Definition YELLOW : pycolor := ColorStr "#DDD000".
Definition DEFAULT : pycolor := ColorStr "#888787".
Definition OPTIMIZER : pycolor := ColorStr "#cccbcb".
Definition HEADER_WARNING : string := "#F6AE24".
Definition HEADER_WARNING_PRINTER : string := "#FFD700".
Definition HEADER_DEFAULT : string := "#eeeeee".
End COLOR.

(** ** Error summary (the tail of [check_printer]) *)

(** [sorted(err_parts, key=lambda elem: elem[1])]: the stable ascending sort
    on the severity. *)
Fixpoint insert_sorted (x : string * Z) (l : list (string * Z)) : list (string * Z) :=
  match l with
  | [] => [x]
  | y :: l' => if x.2 <=? y.2 then x :: l else y :: insert_sorted x l'
  end.

Definition sorted (err_parts : list (string * Z)) : list (string * Z) :=
  foldr insert_sorted [] err_parts.

(** The statements of [check_printer] that set [err_parts] and
    [str_err_parts] in [info], from the violations gathered by its loop. *)
Definition set_err_parts (info : gmap string jval) (err_parts : list (string * Z))
    : gmap string jval :=
  let parts := reverse (sorted err_parts) in
  let info := <["err_parts" := JParts parts]> info in
  let num_errors := Z.of_nat (length parts) in
  match parts with
  | [] => <["str_err_parts" := JStr ""]> info
  | first :: _ =>
      if num_errors =? 1 then
        <["str_err_parts" := JStr ("Alert for " +:+ first.1)]> info
      else
        <["str_err_parts" :=
            JStr ("Alert for " +:+ first.1 +:+ " and " +:+ pretty (num_errors - 1)
                  +:+ " more failures(s)")]> info
  end.

(** ** The polling loop ([check_printers]) *)

Record world : Type := {
  database : gmap string (gmap string dval);  (* document id to its [data] dict *)
  ticks : nat                                 (* readings of the clock so far *)
}.

Section CheckPrinters.
(** [check_printer h rule_list]: the [data] dict of the host, or the
    exception it raises. *)
Variable check_printer : string → list Rule → result (gmap string dval).
(** The formatted time at each reading of the clock. *)
Variable now : nat → string.

Definition offline_info (dev : string) : gmap string jval :=
  <["rgb" := JStr COLOR.HEADER_CRITICAL]>
    (<["alerts" := JStr "Printer offline"]>
      (<["name" := JStr dev]>
        (<["max_status" := JInt 2]> ∅))).

(** One iteration of the [for dev in h] loop. The second component is the
    exception that leaves the iteration, if any. *)
Definition check_one (rule_list : list Rule) (w : world) (dev : string)
    : world * option exn :=
  let data := match database w !! dev with
              | None => ∅
              | Some d => d
              end in
  (* try / except EasySNMPConnectionError *)
  let '(data, pending) :=
    match check_printer dev rule_list with
    | Ok d => (d, None)
    | Raise EasySNMPConnectionError =>
        (<["info" := DInfo (offline_info dev)]> data, None)
    | Raise e => (data, Some e)
    end in
  (* finally *)
  let stamp := now (ticks w) in
  match data !! "info" with
  | Some (DInfo info) =>
      let data := <["info" := DInfo (<["checked" := JStr stamp]> info)]> data in
      ({| database := <[dev := data]> (database w); ticks := S (ticks w) |}, pending)
  | Some (DParts _) =>
      ({| database := database w; ticks := S (ticks w) |}, Some TypeError)
  | None =>
      ({| database := database w; ticks := S (ticks w) |}, Some KeyError)
  end.

Fixpoint check_printers (w : world) (h : list string) (rule_list : list Rule)
    : world * option exn :=
  match h with
  | [] => (w, None)
  | dev :: rest =>
      match check_one rule_list w dev with
      | (w', Some e) => (w', Some e)
      | (w', None) => check_printers w' rest rule_list
      end
  end.
End CheckPrinters.

(** ** Entity assembly ([SNMPWalkable.add_data], [PrinterProperties._parse_data]) *)

Inductive pyval : Type :=
  | PNone
  | PInt (n : Z)
  | PStr (s : string).

(** An entry of a walk. An entry whose [snmp_type] is ["INTEGER"] carries the
    integer that its value text denotes; any other entry carries its type
    and its value text. *)
Inductive entry : Type :=
  | Integer (value : Z)
  | Text (snmp_type : string) (value : string).

(** The characters that [str.strip] removes, among the code points below 256. *)
Definition is_space (c : ascii) : bool :=
  let n := N_of_ascii c in
  ((9 <=? n) && (n <=? 13) || (28 <=? n) && (n <=? 32) || (n =? 133) || (n =? 160))%N.

Fixpoint lstrip (s : string) : string :=
  match s with
  | String c s' => if is_space c then lstrip s' else s
  | EmptyString => s
  end.

Fixpoint rstrip (s : string) : string :=
  match s with
  | String c s' =>
      match rstrip s' with
      | EmptyString => if is_space c then EmptyString else String c EmptyString
      | t => String c t
      end
  | EmptyString => s
  end.

Definition strip (s : string) : string := rstrip (lstrip s).

Fixpoint remove_nul (s : string) : string :=
  match s with
  | String c s' => if Ascii.eqb c zero then remove_nul s' else String c (remove_nul s')
  | EmptyString => s
  end.

Inductive typ : Type := SupplyT | TrayT.

(** The [STRUCTURE] dict of each class, in its order. *)
Definition STRUCTURE (t : typ) : list (string * string) :=
  match t with
  | SupplyT =>
      [("1.3.6.1.2.1.43.11.1.1.4", "class");
       ("1.3.6.1.2.1.43.11.1.1.5", "type");
       ("1.3.6.1.2.1.43.11.1.1.6", "name");
       ("1.3.6.1.2.1.43.11.1.1.7", "unit");
       ("1.3.6.1.2.1.43.11.1.1.8", "capacity");
       ("1.3.6.1.2.1.43.11.1.1.9", "level")]
  | TrayT =>
      [("1.3.6.1.2.1.43.8.2.1.10", "level");
       ("1.3.6.1.2.1.43.8.2.1.11", "status");
       ("1.3.6.1.2.1.43.8.2.1.12", "paper");
       ("1.3.6.1.2.1.43.8.2.1.18", "name")]
  end.

Fixpoint structure_get (d : list (string * string)) (key : string) : result string :=
  match d with
  | [] => Raise KeyError
  | (k, at_) :: d' => if String.eqb k key then Ok at_ else structure_get d' key
  end.

(** An object is its attribute table. *)
Definition setattr (self : gmap string pyval) (attr : string) (v : pyval)
    : gmap string pyval := <[attr := v]> self.

(** [typ()]: every attribute of the structure set to [None]; a tray also gets
    [type = "tray"]. *)
Definition new (t : typ) : gmap string pyval :=
  let self := fold_left (fun self kv => setattr self ("_" +:+ kv.2) PNone) (STRUCTURE t) ∅ in
  match t with
  | SupplyT => self
  | TrayT => setattr self "type" (PStr "tray")
  end.

Definition decode (e : entry) : pyval :=
  match e with
  | Integer n => PInt n
  | Text _ s => PStr (remove_nul (strip s))
  end.

Definition add_data (t : typ) (self : gmap string pyval) (key : string) (e : entry)
    : result (gmap string pyval) :=
  let v := decode e in
  at_ ← structure_get (STRUCTURE t) key;
  Ok (setattr self ("_" +:+ at_) v).

Section ParseData.
Variable t : typ.
(** [session.walk]: the entries under an identifier, or the exception of
    the transport. *)
Variable walk : string → result (list entry).

(** The inner loop, [for idx, entry in enumerate(...)], from index [idx]. *)
Fixpoint parse_entries (key : string) (idx : nat) (entries : list entry)
    (items : list (gmap string pyval)) : result (list (gmap string pyval)) :=
  match entries with
  | [] => Ok items
  | e :: rest =>
      if Z.of_nat idx >? Z.of_nat (length items) - 1 then
        item ← add_data t (new t) key e;
        parse_entries key (S idx) rest (items ++ [item])
      else
        match items !! idx with
        | None => Raise IndexError
        | Some item =>
            item ← add_data t item key e;
            parse_entries key (S idx) rest (<[idx := item]> items)
        end
  end.

(** The outer loop, [for key in typ.STRUCTURE]. *)
Fixpoint parse_keys (keys : list string) (items : list (gmap string pyval))
    : result (list (gmap string pyval)) :=
  match keys with
  | [] => Ok items
  | key :: rest =>
      entries ← walk key;
      items ← parse_entries key 0 entries items;
      parse_keys rest items
  end.

Definition _parse_data : result (list (gmap string pyval)) :=
  parse_keys (STRUCTURE t).*1 [].
End ParseData.

(** ** Attribute dicts ([SNMPWalkable.get_data]) *)

(** [att[1:]] *)
Definition drop_first (att : string) : string :=
  match att with
  | String _ rest => rest
  | EmptyString => EmptyString
  end.

(** The dict of the attributes whose name starts with an underscore, under
    the name without it. *)
Definition get_data (self : gmap string pyval) : gmap string pyval :=
  map_fold (fun att v r => if String.prefix "_" att then <[drop_first att := v]> r else r)
           ∅ self.

(** ** Supply tables ([Supply.UNITS], [Supply.CLASSES]) *)

Definition CLASSES : list (Z * string) := [(1, "other"); (3, "consumed"); (4, "filled")].

Definition UNITS : list (Z * string) :=
  [(1, "other"); (2, "unknown"); (3, "tenThousandthsOfInches"); (4, "micrometers");
   (7, "impressions"); (8, "sheets"); (11, "hours"); (12, "thousandthsOfOunces");
   (13, "tenthsOfGrams"); (14, "hundrethsOfFluidOunces"); (15, "tenthsOfMilliliters");
   (16, "feet"); (17, "meters"); (18, "items"); (19, "percent")].

Definition _get_unit_str (self : Supply.t) : result string :=
  dict_get UNITS (Supply._unit self).

Definition _get_classes_str (self : Supply.t) : result string :=
  dict_get CLASSES (Supply._class self).

(** ** Tray views ([Tray._get_level], [Tray._get_status_str]) *)

(** The pair [(str_level, level_percent)]. *)
Definition _get_level (self : Tray.t) : string * option Z :=
  if Tray._level self >=? 0 then (pretty (Tray._level self), Some (Tray._level self))
  else if Tray._level self =? -1 then ("OT", None)
  else if Tray._level self =? -3 then ("OK", Some 100)
  else ("NA", None).

(** One [if status >= flag] block: the text is appended and the flag taken
    off. *)
Definition peel (flag : Z) (text : string) (acc : string * Z) : string * Z :=
  let '(status_string, status) := acc in
  if status >=? flag then (status_string +:+ text, status - flag) else acc.

(** The [if status == 6 ... elif status == 0] chain. *)
Definition base_state (status : Z) : string :=
  if status =? 6 then "Available and busy, "
  else if status =? 5 then "Unknown, "
  else if status =? 4 then "Available and Active, "
  else if status =? 3 then "Unavailable because broken, "
  else if status =? 2 then "Available and standby, "
  else if status =? 1 then "Unavailable and OnRequest, "
  else if status =? 0 then "Available and Idle, "
  else "".

(** [s[:-2]] *)
Definition drop_last_two (s : string) : string :=
  substring 0 (String.length s - 2) s.

Definition status_text (status : Z) : string :=
  let '(status_string, status) :=
    peel 8 "Non-critical alerts, "
      (peel 16 "Critical alerts, "
        (peel 32 "State is Off-Line, "
          (peel 64 "Transition to intended state, " ("", status)))) in
  drop_last_two (status_string +:+ base_state status).

Definition _get_status_str (self : Tray.t) : string := status_text (Tray._status self).

(** ** Display text and alerts ([PrinterInfo._get_display_text], [_get_alerts]) *)

(** The loop over the walked values: a non-empty value is stripped and kept
    unless it is in [lines] already. *)
Fixpoint unique_lines_from (lines : list string) (values : list string) : list string :=
  match values with
  | [] => lines
  | value :: rest =>
      if String.eqb value "" then unique_lines_from lines rest
      else
        let item := strip value in
        if bool_decide (item ∈ lines) then unique_lines_from lines rest
        else unique_lines_from (lines ++ [item]) rest
  end.

Definition unique_lines (values : list string) : list string :=
  unique_lines_from [] values.

(** [sep.join(l)] *)
Fixpoint join (sep : string) (l : list string) : string :=
  match l with
  | [] => ""
  | [x] => x
  | x :: rest => x +:+ sep +:+ join sep rest
  end.

Definition _get_display_text (values : list string) : string :=
  join ", " (unique_lines values).

(** [s.replace(old, new)] for the two code points 195, 182 of [old] and the
    code point 246 of [new]. *)
Fixpoint replace_o_umlaut (s : string) : string :=
  match s with
  | String a s' =>
      match s' with
      | String b rest =>
          if Ascii.eqb a (ascii_of_N 195) && Ascii.eqb b (ascii_of_N 182)
          then String (ascii_of_N 246) (replace_o_umlaut rest)
          else String a (replace_o_umlaut s')
      | EmptyString => s
      end
  | EmptyString => s
  end.

Definition _get_alerts (values : list string) : string :=
  replace_o_umlaut (join ", " (unique_lines values)).

(** ** Colours ([get_color], [get_header_color]) *)

(** [COLOR_MAPPING], in its order. *)
Definition COLOR_MAPPING : list (string * pycolor) :=
  [("black", COLOR.BLACK); ("cyan", COLOR.CYAN); ("magenta", COLOR.MAGENTA);
   ("yellow", COLOR.YELLOW); ("schwarz", COLOR.BLACK); ("gelb", COLOR.YELLOW);
   ("cz696a", COLOR.MAGENTA); ("cz699a", COLOR.LIGHT_MAGENTA);
   ("cz698a", COLOR.LIGHT_CYAN); ("cz695a", COLOR.CYAN); ("cz706a", COLOR.OPTIMIZER);
   ("cz694a", COLOR.BLACK); ("cz697a", COLOR.YELLOW)].

(** [str.lower] on the code points below 256. *)
Definition lower_char (c : ascii) : ascii :=
  let n := N_of_ascii c in
  if ((65 <=? n) && (n <=? 90) || (192 <=? n) && (n <=? 222) && negb (n =? 215))%N
  then ascii_of_N (n + 32)
  else c.

Fixpoint lower (s : string) : string :=
  match s with
  | String c s' => String (lower_char c) (lower s')
  | EmptyString => s
  end.

(** The [for x in COLOR_MAPPING] loop over the entries left. *)
Fixpoint color_from (mapping : list (string * pycolor)) (name : string) : pycolor :=
  match mapping with
  | [] => COLOR.DEFAULT
  | (x, c) :: rest => if str_in x name then c else color_from rest name
  end.

Definition get_color {A} `{SNMPWalkable A} (item : A) : pycolor :=
  let name := lower (get_name item) in
  color_from COLOR_MAPPING name.

Definition get_header_color (max_status status_severity : Z) : string :=
  if max_status =? 1 then COLOR.HEADER_WARNING
  else if (max_status =? 2) || (max_status =? 4) then COLOR.HEADER_CRITICAL
  else if status_severity =? 1 then COLOR.HEADER_WARNING_PRINTER
  else COLOR.HEADER_DEFAULT.

(** ** The command-line check ([SNMPWalker.check_rules]) *)

Definition SEVERITY : list (Z * string) := [(0, "OK"); (1, "WARN"); (2, "CRIT")].

(** [s.rjust(4)] *)
Definition rjust4 (s : string) : string :=
  String.concat "" (repeat " " (4 - String.length s)) +:+ s.

Section CheckRules.
Context {A : Type} `{SNMPWalkable A}.
Variable s : A.
Variable host : string.
Variable sev : Z.

(** The [for r in self.rules] loop for one part: the lines printed, and the
    exception that ends the loop, if any. *)
Fixpoint check_rules_part (rules : list Rule) : list string * option exn :=
  match rules with
  | [] => ([], None)
  | r :: rest =>
      match matches r s host with
      | Raise e => ([], Some e)
      | Ok false => check_rules_part rest
      | Ok true =>
          match check s r with
          | Raise e => ([], Some e)
          | Ok ok =>
              let severity := if ok then 0 else severity r in
              let printed :=
                if severity >=? sev then
                  status ← (if ok then dict_get SEVERITY 0 else dict_get SEVERITY severity);
                  Ok ["[" +:+ rjust4 status +:+ "] (" +:+ name r +:+ ") => " +:+ get_name s]
                else Ok [] in
              match printed with
              | Raise e => ([], Some e)
              | Ok lines =>
                  if stop r then (lines, None)
                  else
                    let '(more, outcome) := check_rules_part rest in
                    ((lines ++ more)%list, outcome)
              end
          end
      end
  end.
End CheckRules.

(** ** Specification-side definitions *)

(** *** Rule evaluation *)

Section Evaluate.
Context {A : Type} `{SNMPWalkable A}.
Variable item : A.
Variable host : string.

(** The rule matches the part. *)
Definition matched (r : Rule) : bool :=
  match matches r item host with Ok true => true | _ => false end.

(** The part fails the rule's check, which returns false: [apply_rules]
    tests [not ok]. This is the opposite of the value of [check] that the
    specification calls violates. *)
Definition violated (r : Rule) : bool :=
  match check item r with Ok false => true | _ => false end.

(** The rules in declaration order, up to and including the first matching
    rule that declares [stop]. *)
Fixpoint considered (rule_list : list Rule) : list Rule :=
  match rule_list with
  | [] => []
  | r :: rest => if matched r && stop r then [r] else r :: considered rest
  end.

Definition matched_and_violated (rule_list : list Rule) : list Rule :=
  List.filter (fun r => matched r && violated r) (considered rule_list).

Definition max_violated_severity (rule_list : list Rule) : Z :=
  foldr Z.max 0 (map severity (matched_and_violated rule_list)).

(** [st] is the largest severity among [rs], and 0 when there is none. *)
Definition is_max_severity (st : Z) (rs : list Rule) : Prop :=
  match rs with
  | [] => st = 0
  | _ => (∃ r, r ∈ rs ∧ severity r = st) ∧ ∀ r, r ∈ rs → severity r ≤ st
  end.

(** Testing the rule raises no exception. *)
Definition evaluates (r : Rule) : Prop :=
  ∃ m, matches r item host = Ok m ∧ (m = true → ∃ ok, check item r = Ok ok).
End Evaluate.

(** *** Rule matching, in the words of the specification *)

(** A sub-predicate: absent, it holds; a single value must satisfy [p]; of a
    list, some element must. *)
Definition sub_holds (p : string → bool) (v : option mval) : bool :=
  match v with
  | None => true
  | Some (MStr s) => p s
  | Some (MList l) => existsb (fun e => match e with MStr s => p s | _ => false end) l
  | Some MOther => false
  end.

Definition type_string {A} `{SNMPWalkable A} (o : A) : string :=
  match get_type_str o with Ok typ => typ | Raise _ => "" end.

Definition matches_spec {A} `{SNMPWalkable A} (self : Rule) (o : A) (h : string) : bool :=
  match match_ self with
  | None => false
  | Some m =>
      if bool_decide (size m = 0%nat) then false
      else sub_holds (fun host => String.eqb host h) (m !! "host")
           && sub_holds (fun n => str_in n (get_name o)) (m !! "name")
           && sub_holds (fun ty => str_in ty (type_string o)) (m !! "type")
  end.

Definition is_str (v : mval) : bool :=
  match v with MStr _ => true | _ => false end.

(** A string, or a list of strings. *)
Definition str_or_strs (v : mval) : bool :=
  match v with
  | MStr _ => true
  | MList l => forallb is_str l
  | MOther => false
  end.

(** The match section, when the rule has a non-empty one, is typed as
    [matches] expects it: [host] and [type] a string or a list of strings,
    [name] a string, and the part's type is known when [type] is given. *)
Definition well_typed {A} `{SNMPWalkable A} (self : Rule) (o : A) : bool :=
  match match_ self with
  | None => true
  | Some m =>
      bool_decide (size m = 0%nat)
      || (from_option str_or_strs true (m !! "host")
          && from_option is_str true (m !! "name")
          && from_option (fun v => str_or_strs v && is_ok (get_type_str o)) true
                         (m !! "type"))
  end.

(** *** Self-reported severity *)

(** The mapping of alarm codes: 4 to 1, 3 to 2, any other to 0. *)
Definition severity_of_code (code : Z) : Z :=
  if code =? 4 then 1 else if code =? 3 then 2 else 0.

(** The largest of the walked codes, 0 for an empty walk. *)
Definition maximum_code (codes : list Z) : Z := foldr Z.max 0 codes.

(** *** Entity assembly *)

(** The value of the attribute fed by [key] in the [i]-th entity: the decoded
    [i]-th entry of the sequence of [key], or [None] beyond its end. *)
Definition attr_value (seqs : string → list entry) (key : string) (i : nat) : pyval :=
  match seqs key !! i with
  | Some e => decode e
  | None => PNone
  end.

(** The state of [items] once the identifiers [done] are walked. *)
Definition assembled (t : typ) (seqs : string → list entry) (done : list string)
    (items : list (gmap string pyval)) : Prop :=
  length items = max_list_with (fun key => length (seqs key)) done ∧
  ∀ i item key at_,
    items !! i = Some item → (key, at_) ∈ STRUCTURE t →
    item !! ("_" +:+ at_)
    = Some (if bool_decide (key ∈ done) then attr_value seqs key i else PNone).

(** *** Polling loop *)

Section Reachable.
Variable check_printer : string → list Rule → result (gmap string dval).

(** The host is polled, or its transport fails to connect. *)
Definition polled_or_offline (rule_list : list Rule) (dev : string) : Prop :=
  check_printer dev rule_list = Raise EasySNMPConnectionError ∨
  ∃ d info, check_printer dev rule_list = Ok d ∧ d !! "info" = Some (DInfo info).
End Reachable.

(** ** Example data *)

Definition rule (m : gmap string mval) (st : bool) (th : option spec_float)
    (sb : option Z) (sev : Z) : Rule :=
  {| name := "rule"; match_ := Some m; stop := st; threshold := th; status := sb;
     severity := sev |}.

Definition f0 : spec_float := S754_zero false.
(** 70.0 and 80.0 *)
Definition f70 : spec_float := S754_finite false 4925812092436480 (-46).
Definition f80 : spec_float := S754_finite false 5629499534213120 (-46).

Definition black_toner : Supply.t :=
  {| Supply._class := 3; Supply._type := 21; Supply._name := "Black Toner";
     Supply._unit := 19; Supply._capacity := 200; Supply._level := 150 |}.

Definition staples : Supply.t :=
  {| Supply._class := 3; Supply._type := 32; Supply._name := "Staples";
     Supply._unit := 18; Supply._capacity := 5000; Supply._level := -3 |}.

Definition tray (st : Z) : Tray.t :=
  {| Tray._level := 100; Tray._status := st; Tray._paper := "A4";
     Tray._name := "Tray 1" |}.

Definition toner_or_ink : gmap string mval :=
  {[ "type" := MList [MStr "toner"; MStr "ink"] ]}.

Definition any_tray : gmap string mval := {[ "type" := MStr "tray" ]}.

Definition name_list : gmap string mval := {[ "name" := MList [MStr "Toner"] ]}.

Definition always_offline (dev : string) (rule_list : list Rule)
    : result (gmap string dval) := Raise EasySNMPConnectionError.

Definition midnight (n : nat) : string := "01.01.2020 00:00:00".

Definition stored_toner : gmap string jval := {[ "name" := JStr "Black Toner" ]}.

Definition stored_world : world :=
  {| database :=
       {[ "printer1" :=
            <["trays" := DParts []]>
              (<["supplies" := DParts [stored_toner]]>
                (<["info" := DInfo ∅]> ∅)) ]};
     ticks := 0 |}.

Definition empty_world : world := {| database := ∅; ticks := 0 |}.

Definition tray_walk (key : string) : result (list entry) :=
  if String.eqb key "1.3.6.1.2.1.43.8.2.1.10" then Ok [Integer 1; Integer 2]
  else if String.eqb key "1.3.6.1.2.1.43.8.2.1.18" then
    Ok [Text "OCTETSTR" " Tray 1 "; Text "OCTETSTR" "Tray 2"; Text "OCTETSTR" "Tray 3"]
  else Ok [].

Definition tray_seqs (key : string) : list entry :=
  match tray_walk key with Ok l => l | Raise _ => [] end.

Definition stop_rules : list Rule :=
  [rule toner_or_ink true (Some f70) None 1; rule toner_or_ink false (Some f80) None 2].

Definition no_stop_rules : list Rule :=
  [rule toner_or_ink false (Some f70) None 1; rule toner_or_ink false (Some f80) None 2].

Definition three_rules : list Rule :=
  [rule toner_or_ink false (Some f70) None 1; rule toner_or_ink false (Some f80) None 2;
   rule toner_or_ink false None None 1].

Definition no_threshold : Rule := rule toner_or_ink false None None 2.

(** ** Part dicts ([Supply.get_data], [Tray.get_data]) *)

(** Values of the dict of a part. *)
Inductive pval : Type :=
  | VNone
  | VInt (z : Z)
  | VStr (s : string)
  | VFloat (f : spec_float)
  | VColor (c : pycolor).

(** The decimal digits of [m * 2^e * 10], rounded to the nearest integer, ties
    to even. *)
Definition round_tenths (m : positive) (e : Z) : Z :=
  let n := Z.pos m * 10 in
  if e >=? 0 then n * 2 ^ e
  else
    let d := 2 ^ (- e) in
    let q := n / d in
    let r := n mod d in
    if 2 * r <? d then q
    else if 2 * r >? d then q + 1
    else if Z.even q then q else q + 1.

(** ["{:.1f}".format(x)] *)
Definition format_1f (x : spec_float) : string :=
  match x with
  | S754_nan => "nan"
  | S754_infinity s => if s then "-inf" else "inf"
  | S754_zero s => if s then "-0.0" else "0.0"
  | S754_finite s m e =>
      let n := round_tenths m e in
      (if s then "-" else "") +:+ pretty (n / 10) +:+ "." +:+ pretty (n mod 10)
  end.

(** [Supply._get_level]: the pair [(str_level, level_percent)]. *)
Definition Supply_get_level (self : Supply.t) : result (string * pval) :=
  if Supply._level self =? -3 then Ok ("OK", VInt 100)
  else if Supply._level self =? -2 then Ok ("NA", VNone)
  else
    lvl ← Supply.percent self;
    Ok (format_1f lvl +:+ "%", VFloat lvl).

Definition _get_capacity_str (self : Supply.t) : string :=
  if Supply._capacity self >? 0 then pretty (Supply._capacity self)
  else if Supply._capacity self =? -1 then "other / no restrictions"
  else "unknown".

Definition Supply_get_data (self : Supply.t) : result (gmap string pval) :=
  let r : gmap string pval :=
    <["level" := VInt (Supply._level self)]>
      (<["capacity" := VInt (Supply._capacity self)]>
        (<["unit" := VInt (Supply._unit self)]>
          (<["name" := VStr (Supply._name self)]>
            (<["type" := VInt (Supply._type self)]>
              (<["class" := VInt (Supply._class self)]> ∅))))) in
  lvl ← Supply_get_level self;
  let r := <["level_percent" := lvl.2]> (<["str_level" := VStr lvl.1]> r) in
  let r := <["str_capacity" := VStr (_get_capacity_str self)]> r in
  str_unit ← _get_unit_str self;
  let r := <["str_unit" := VStr str_unit]> r in
  str_type ← Supply.get_type_str self;
  let r := <["str_type" := VStr str_type]> r in
  str_class ← _get_classes_str self;
  Ok (<["str_class" := VStr str_class]> r).

Definition Tray_get_data (self : Tray.t) : gmap string pval :=
  let r : gmap string pval :=
    <["name" := VStr (Tray._name self)]>
      (<["paper" := VStr (Tray._paper self)]>
        (<["status" := VInt (Tray._status self)]>
          (<["level" := VInt (Tray._level self)]> ∅))) in
  let lvl := _get_level self in
  let r :=
    <["level_percent" := match lvl.2 with Some n => VInt n | None => VNone end]>
      (<["str_level" := VStr lvl.1]> r) in
  <["str_status" := VStr (_get_status_str self)]> r.

(** ** The loop of [check_printer] *)

(** A part of the list [supplies + trays]. *)
#[global] Instance part_walkable : SNMPWalkable (Supply.t + Tray.t) := {
  get_name := fun s => match s with inl x => get_name x | inr x => get_name x end;
  get_type_str := fun s => match s with inl x => get_type_str x | inr x => get_type_str x end;
  check := fun s r => match s with inl x => check x r | inr x => check x r end
}.

Definition part_get_data (s : Supply.t + Tray.t) : result (gmap string pval) :=
  match s with
  | inl x => Supply_get_data x
  | inr x => Ok (Tray_get_data x)
  end.

(** The output variables of [check_printer]; [name_set] is its [name_list]. *)
Record outputs : Type := {
  out_supplies : list (gmap string pval);
  out_trays : list (gmap string pval);
  max_status : Z;
  err_parts : list (string * Z);
  name_set : gset string
}.

Definition no_outputs : outputs :=
  {| out_supplies := []; out_trays := []; max_status := 0; err_parts := [];
     name_set := ∅ |}.

Section CheckParts.
Variable h : string.
Variable rule_list : list Rule.
(** The display name of a part: its words joined by one space, each with its
    first letter in upper case. *)
Variable capitalized : string → string.

(** The loop [for s in supplies + trays]. The [name] entry is set after the
    dict is appended to its list, on the same dict. *)
Fixpoint check_parts (parts : list (Supply.t + Tray.t)) (o : outputs) : result outputs :=
  match parts with
  | [] => Ok o
  | s :: rest =>
      let name := get_name s in
      if bool_decide (name ∈ name_set o) then check_parts rest o
      else
        let names := name_set o ∪ {[name]} in
        typ ← get_type_str s;
        status ← apply_rules s h rule_list;
        let max_status := if status >? max_status o then status else max_status o in
        let err_parts :=
          if status >? 0 then (err_parts o ++ [(get_name s, status)])%list
          else err_parts o in
        let color := get_color s in
        d ← part_get_data s;
        let d := <["name" := VStr (capitalized name)]>
                   (<["status" := VInt status]> (<["rgb" := VColor color]> d)) in
        if String.eqb typ "tray" then
          check_parts rest
            {| out_supplies := out_supplies o; out_trays := (out_trays o ++ [d])%list;
               max_status := max_status; err_parts := err_parts; name_set := names |}
        else
          check_parts rest
            {| out_supplies := (out_supplies o ++ [d])%list; out_trays := out_trays o;
               max_status := max_status; err_parts := err_parts; name_set := names |}
  end.
End CheckParts.

(** The statements of [check_printer] after its loop, on the [info] dict. *)
Definition finish_info (info : gmap string jval) (o : outputs) : result (gmap string jval) :=
  match info !! "severity" with
  | None => Raise KeyError
  | Some (JInt severity) =>
      let info := <["rgb" := JStr (get_header_color (max_status o) severity)]> info in
      let max_status := Z.max (max_status o) severity in
      let info := <["max_status" := JInt max_status]> info in
      Ok (set_err_parts info (err_parts o))
  | Some _ => Raise TypeError
  end.

(** ** Further specification-side definitions *)

Definition all_space (s : string) : bool :=
  forallb is_space (list_ascii_of_string s).

Definition starts_with_space (s : string) : bool :=
  match s with
  | String c _ => is_space c
  | EmptyString => false
  end.

Fixpoint ends_with_space (s : string) : bool :=
  match s with
  | String c EmptyString => is_space c
  | String _ s' => ends_with_space s'
  | EmptyString => false
  end.

(** The text contains the NUL character. *)
Definition has_nul (s : string) : bool :=
  existsb (fun c => Ascii.eqb c zero) (list_ascii_of_string s).

(** The phrases of the flags that are set, most significant first. *)
Definition flag_texts (transition offline critical noncritical : bool) : list string :=
  ((if transition then ["Transition to intended state"] else [])
   ++ (if offline then ["State is Off-Line"] else [])
   ++ (if critical then ["Critical alerts"] else [])
   ++ (if noncritical then ["Non-critical alerts"] else []))%list.

(** The phrase of a base state, 0 to 6. *)
Definition base_name (state : Z) : string :=
  nth (Z.to_nat state)
      ["Available and Idle"; "Unavailable and OnRequest"; "Available and standby";
       "Unavailable because broken"; "Available and Active"; "Unknown";
       "Available and busy"] "".

Definition all_flags : string :=
  "Transition to intended state, State is Off-Line, Critical alerts, Non-critical alerts".

Definition unknown_supply : Supply.t :=
  {| Supply._class := 3; Supply._type := 35; Supply._name := "Mystery";
     Supply._unit := 19; Supply._capacity := 100; Supply._level := 50 |}.

Definition empty_capacity : Supply.t :=
  {| Supply._class := 3; Supply._type := 21; Supply._name := "Toner";
     Supply._unit := 19; Supply._capacity := 0; Supply._level := 150 |}.

Definition always_broken (dev : string) (rule_list : list Rule)
    : result (gmap string dval) := Raise KeyError.

(** The parts that the loop of [check_printer] keeps: those whose name is not
    in [seen] and was not met before. *)
Fixpoint first_occurrences (seen : gset string) (parts : list (Supply.t + Tray.t))
    : list (Supply.t + Tray.t) :=
  match parts with
  | [] => []
  | s :: rest =>
      if bool_decide (get_name s ∈ seen) then first_occurrences seen rest
      else s :: first_occurrences (seen ∪ {[get_name s]}) rest
  end.

Definition is_tray (s : Supply.t + Tray.t) : bool :=
  match s with inr _ => true | inl _ => false end.

(** A kept part with its status and its dict. *)
Definition kept_part : Type := (Supply.t + Tray.t) * Z * gmap string pval.

(** The dict that the loop stores for a kept part. *)
Definition stored_dict (capitalized : string → string) (e : kept_part) : gmap string pval :=
  <["name" := VStr (capitalized (get_name e.1.1))]>
    (<["status" := VInt e.1.2]> (<["rgb" := VColor (get_color e.1.1)]> e.2)).

Definition stored_supplies (capitalized : string → string) (entries : list kept_part)
    : list (gmap string pval) :=
  map (stored_dict capitalized) (List.filter (fun e => negb (is_tray e.1.1)) entries).

Definition stored_trays (capitalized : string → string) (entries : list kept_part)
    : list (gmap string pval) :=
  map (stored_dict capitalized) (List.filter (fun e => is_tray e.1.1) entries).

Definition violations (entries : list kept_part) : list (string * Z) :=
  map (fun e : kept_part => (get_name e.1.1, e.1.2))
      (List.filter (fun e : kept_part => e.1.2 >? 0) entries).

Definition example_parts : list (Supply.t + Tray.t) :=
  [inl black_toner; inr (tray 28); inl black_toner; inl staples].

Definition example_outputs : outputs :=
  match check_parts "printer1" three_rules (fun n => n) example_parts no_outputs with
  | Ok o => o
  | Raise _ => no_outputs
  end.

Definition self_critical : gmap string jval :=
  {[ "severity" := JInt 2; "name" := JStr "printer1" ]}.

(** The elements of a list, each at its first occurrence. *)
Fixpoint keep_first (l : list string) : list string :=
  match l with
  | [] => []
  | x :: l' => x :: filter (fun y => y ≠ x) (keep_first l')
  end.

(** * Properties *)

(** ** The error monad *)

Lemma bind_Ok {A B} (f : A → result B) (a : A) : (Ok a ≫= f) = f a.
Proof. reflexivity. Qed.

Lemma bind_Raise {A B} (f : A → result B) (e : exn) : (Raise e ≫= f) = Raise e.
Proof. reflexivity. Qed.

(** ** Substring containment *)

Lemma prefix_app (sub s : string) :
  String.prefix sub s = true ↔ ∃ post, s = sub +:+ post.
Proof.
  revert s. induction sub as [|c sub IH]; intros s; simpl.
  - destruct s; simpl; (split; [intros _; by eexists | done]).
  - destruct s as [|d s]; simpl.
    + split; [done | intros [post Hp]; discriminate].
    + destruct (ascii_dec c d) as [->|Hne].
      * rewrite IH. split; intros [post Hp]; exists post.
        -- simpl. by rewrite Hp.
        -- simpl in Hp. by injection Hp.
      * split; [done | intros [post Hp]; simpl in Hp; injection Hp as Hcd _; by destruct Hne].
Qed.

(** [str_in] is case-sensitive containment as a contiguous substring. *)
Lemma str_in_spec (sub s : string) :
  str_in sub s = true ↔ ∃ pre post, s = pre +:+ sub +:+ post.
Proof.
  induction s as [|c s IH]; cbn [str_in].
  - rewrite orb_false_r, prefix_app. split.
    + intros [post Hp]. by exists "", post.
    + intros [pre [post Hp]]. destruct pre; [by exists post | discriminate].
  - rewrite orb_true_iff, prefix_app, IH. split.
    + intros [[post Hp]|[pre [post Hp]]].
      * by exists "", post.
      * exists (String c pre), post. simpl. by rewrite Hp.
    + intros [pre [post Hp]]. destruct pre as [|d pre].
      * left. by exists post.
      * right. simpl in Hp. injection Hp as _ Hp. by exists pre, post.
Qed.

(** ** Supply.check *)

Lemma Supply_check_no_threshold (s : Supply.t) (r : Rule) :
  Supply._level s ≠ -3 → Supply._level s ≠ -2 → threshold r = None →
  Supply.check s r = Ok false.
Proof.
  intros H3 H2 Ht. unfold Supply.check, threshold_truthy.
  rewrite Ht. apply Z.eqb_neq in H3, H2. by rewrite H3, H2.
Qed.

(** With a threshold other than zero, the outcome is the comparison of the
    percentage with the threshold. *)
Lemma Supply_check_threshold (s : Supply.t) (r : Rule) (th : spec_float) :
  Supply._level s ≠ -3 → Supply._level s ≠ -2 →
  threshold r = Some th → Float.truthy th = true →
  Supply.check s r = (p ← Supply.percent s; Ok (Float.ge p th)).
Proof.
  intros H3 H2 Ht Hz. unfold Supply.check, threshold_truthy.
  rewrite Ht, Hz. apply Z.eqb_neq in H3, H2. by rewrite H3, H2.
Qed.

(** Capacity 200, level 150 is 75.0 percent: the check holds at threshold 70
    and fails at threshold 80. *)
Example Supply_check_75_70 :
  Supply.check black_toner (rule toner_or_ink false (Some f70) None 2) = Ok true.
Proof. vm_compute. reflexivity. Qed.

Example Supply_check_75_80 :
  Supply.check black_toner (rule toner_or_ink false (Some f80) None 2) = Ok false.
Proof. vm_compute. reflexivity. Qed.

Example f70_is_70 : Float.of_int 70 = Ok f70.
Proof. vm_compute. reflexivity. Qed.

Example f80_is_80 : Float.of_int 80 = Ok f80.
Proof. vm_compute. reflexivity. Qed.

(** A capacity of zero raises. *)
Example Supply_check_capacity_0 :
  Supply.check {| Supply._class := 3; Supply._type := 21; Supply._name := "Toner";
                  Supply._unit := 19; Supply._capacity := 0; Supply._level := 150 |}
               (rule toner_or_ink false (Some f70) None 2)
  = Raise ZeroDivisionError.
Proof. vm_compute. reflexivity. Qed.

(** C4: a supply whose level is -3, and likewise one whose level is -2, makes
    [Supply.check] return true for every rule, whatever its threshold. *)
Theorem Supply_check_sentinel (s : Supply.t) (r : Rule) :
  Supply._level s = -3 ∨ Supply._level s = -2 → check s r = Ok true.
Proof.
  intros [Hl|Hl]; simpl; unfold Supply.check; rewrite Hl; reflexivity.
Qed.

Lemma Supply_check_sentinel_witness :
  (Supply._level staples = -3 ∨ Supply._level staples = -2) ∧
  check staples (rule toner_or_ink false (Some f80) None 2) = Ok true.
Proof.
  split; [left; reflexivity | apply Supply_check_sentinel; left; reflexivity].
Defined.

(** C5: at the threshold 0.0 the check of a supply at 75 percent returns false,
    although 75.0 >= 0.0 holds: the test [not rule.threshold] takes the zero
    threshold for a missing one. *)
Theorem Supply_check_zero_threshold :
  Supply.check black_toner (rule toner_or_ink false (Some f0) None 2) = Ok false ∧
  ∃ p, Supply.percent black_toner = Ok p ∧ Float.ge p f0 = true.
Proof.
  split; [vm_compute; reflexivity|].
  eexists. split; vm_compute; reflexivity.
Qed.

(** ** Tray.check *)

Lemma Tray_check_no_bound (tr : Tray.t) (r : Rule) :
  status r = None → Tray.check tr r = Ok false.
Proof. intros Hs. unfold Tray.check, status_truthy. by rewrite Hs. Qed.

(** With a bound other than zero, the outcome is [status <= bound]. *)
Lemma Tray_check_bound (tr : Tray.t) (r : Rule) (b : Z) :
  status r = Some b → b ≠ 0 → Tray.check tr r = Ok (Tray._status tr <=? b).
Proof.
  intros Hs Hb. unfold Tray.check, status_truthy. rewrite Hs.
  apply Z.eqb_neq in Hb. by rewrite Hb.
Qed.

Example Tray_check_4_5 : Tray.check (tray 4) (rule any_tray false None (Some 5) 2) = Ok true.
Proof. reflexivity. Qed.

Example Tray_check_4_3 : Tray.check (tray 4) (rule any_tray false None (Some 3) 2) = Ok false.
Proof. reflexivity. Qed.

(** C6: at the status bound 0 the check of a tray whose status code is 0
    returns false, although 0 <= 0 holds: the test [not rule.status] takes the
    zero bound for a missing one. *)
Theorem Tray_check_zero_bound :
  Tray.check (tray 0) (rule any_tray false None (Some 0) 2) = Ok false ∧
  (Tray._status (tray 0) <=? 0) = true.
Proof. split; reflexivity. Qed.

(** ** Self-reported severity *)

Lemma max_step_max (m code : Z) : max_step m code = Z.max m (Z.min code 4).
Proof. unfold max_step. cbv zeta. destruct (Z.gtb_spec (Z.min code 4) m); lia. Qed.

Lemma max_code_from (codes : list Z) (m : Z) :
  0 ≤ m → fold_left max_step codes m = Z.max m (Z.min (foldr Z.max 0 codes) 4).
Proof.
  revert m. induction codes as [|c cs IH]; intros m Hm; simpl.
  - lia.
  - rewrite max_step_max, IH by lia. lia.
Qed.

Lemma maximum_code_nonneg (codes : list Z) : 0 ≤ maximum_code codes.
Proof. unfold maximum_code. induction codes; simpl; lia. Qed.

Lemma max_code_clamped (codes : list Z) :
  max_code codes = Z.min (maximum_code codes) 4.
Proof.
  unfold max_code. pose proof (maximum_code_nonneg codes) as Hn.
  rewrite max_code_from by lia. unfold maximum_code in *. lia.
Qed.

(** A code above 4 does not map to 0: the walk [5] gives severity 1, while
    the mapping sends 5, being neither 4 nor 3, to 0. *)
Lemma max_severity_code_5 :
  _get_max_severity_level [5] = 1 ∧ severity_of_code (maximum_code [5]) = 0.
Proof. split; reflexivity. Qed.

(** C7 (amended): the self-reported severity is the image, under the mapping
    4 to 1, 3 to 2 and any other to 0, of the largest walked code clamped to at
    most 4; an empty walk gives 0. *)
Theorem max_severity_level_clamped (codes : list Z) :
  _get_max_severity_level codes = severity_of_code (Z.min (maximum_code codes) 4) ∧
  _get_max_severity_level [] = 0.
Proof.
  split; [|reflexivity].
  unfold _get_max_severity_level, severity_of_code. by rewrite max_code_clamped.
Qed.

(** By cases on the largest code. *)
Lemma max_severity_level_cases (codes : list Z) :
  (4 ≤ maximum_code codes → _get_max_severity_level codes = 1) ∧
  (maximum_code codes = 3 → _get_max_severity_level codes = 2) ∧
  (maximum_code codes < 3 → _get_max_severity_level codes = 0).
Proof.
  unfold _get_max_severity_level. rewrite max_code_clamped.
  repeat split; intros Hm.
  - by replace (Z.min (maximum_code codes) 4) with 4 by lia.
  - by rewrite Hm.
  - destruct (Z.eqb_spec (Z.min (maximum_code codes) 4) 4); [lia|].
    destruct (Z.eqb_spec (Z.min (maximum_code codes) 4) 3); [lia|done].
Qed.

(** ** apply_rules *)

Lemma foldr_max_init (a b : Z) (l : list Z) :
  foldr Z.max (Z.max a b) l = Z.max b (foldr Z.max a l).
Proof. induction l as [|x l IH]; simpl; lia. Qed.

Lemma foldr_max_ge_init (a : Z) (l : list Z) : a ≤ foldr Z.max a l.
Proof. induction l as [|x l IH]; simpl; lia. Qed.

Lemma foldr_max_is_max (rs : list Rule) :
  Forall (fun r => 0 ≤ severity r) rs →
  is_max_severity (foldr Z.max 0 (map severity rs)) rs.
Proof.
  induction rs as [|r rs IH]; intros Hpos; [reflexivity|].
  inversion Hpos as [|? ? Hr Hrs]; subst. specialize (IH Hrs).
  simpl. split.
  - destruct (Z.max_spec (severity r) (foldr Z.max 0 (map severity rs)))
      as [[Hlt ->]|[Hle ->]].
    + destruct rs as [|r' rs']; simpl in *; [lia|].
      destruct IH as [[r0 [Hin Hsev]] _].
      exists r0. split; [by apply list_elem_of_further | done].
    + exists r. split; [apply list_elem_of_here | done].
  - intros r0 Hin. apply elem_of_cons in Hin as [->|Hin]; [lia|].
    destruct rs as [|r' rs']; [by apply elem_of_nil in Hin|].
    destruct IH as [_ Hmax]. specialize (Hmax r0 Hin). simpl in *. lia.
Qed.

Section ApplyRulesFacts.
Context {A : Type} `{SNMPWalkable A}.
Variable item : A.
Variable host : string.

Lemma considered_subset (rule_list : list Rule) (r : Rule) :
  r ∈ considered item host rule_list → r ∈ rule_list.
Proof.
  induction rule_list as [|r0 rest IH]; simpl; [done|].
  destruct (matched item host r0 && stop r0).
  - intros Hin. apply list_elem_of_singleton in Hin as ->. apply list_elem_of_here.
  - intros Hin. apply elem_of_cons in Hin as [->|Hin].
    + apply list_elem_of_here.
    + apply list_elem_of_further. by apply IH.
Qed.

Lemma matched_and_violated_subset (rule_list : list Rule) (r : Rule) :
  r ∈ matched_and_violated item host rule_list → r ∈ rule_list.
Proof.
  unfold matched_and_violated. intros Hin.
  apply list_elem_of_In, filter_In in Hin as [Hin _].
  apply considered_subset. by apply list_elem_of_In.
Qed.

Lemma apply_rules_from_spec (status : Z) (rule_list : list Rule) :
  Forall (evaluates item host) (considered item host rule_list) →
  apply_rules_from item host status rule_list
  = Ok (foldr Z.max status (map severity (matched_and_violated item host rule_list))).
Proof.
  revert status. induction rule_list as [|r rest IH]; intros status Hev; [reflexivity|].
  unfold matched_and_violated in *. cbn [apply_rules_from considered] in *.
  assert (evaluates item host r ∧
          (matched item host r && stop r = false →
           Forall (evaluates item host) (considered item host rest)))
    as [[m [Hm Hc]] Hrest].
  { destruct (matched item host r && stop r); inversion Hev; subst; by split. }
  assert (matched item host r = m) as Hmd.
  { unfold matched. rewrite Hm. by destruct m. }
  rewrite Hm, bind_Ok, Hmd in *. destruct m; cbn [andb] in *.
  - destruct (Hc eq_refl) as [ok Hok]. rewrite Hok, bind_Ok.
    assert (violated item r = negb ok) as Hvd.
    { unfold violated. rewrite Hok. by destruct ok. }
    assert ((if negb ok && (severity r >? status) then severity r else status)
            = if negb ok then Z.max status (severity r) else status) as ->.
    { destruct (negb ok); cbn [andb]; [|done].
      destruct (Z.gtb_spec (severity r) status); lia. }
    destruct (stop r); cbn [List.filter]; rewrite Hmd, Hvd; cbn [andb];
      destruct (negb ok); cbn [map foldr]; rewrite ?(IH _ (Hrest eq_refl));
      f_equal; try lia.
    apply foldr_max_init.
  - cbn [List.filter]. rewrite Hmd. cbn [andb]. apply IH, Hrest. reflexivity.
Qed.

Lemma apply_rules_from_mono (rule_list : list Rule) (status st : Z) :
  apply_rules_from item host status rule_list = Ok st → status ≤ st.
Proof.
  revert status. induction rule_list as [|r rest IH]; intros status; simpl.
  - intros [= ->]. lia.
  - destruct (matches r item host) as [[|]|e]; simpl; [| apply IH | done].
    destruct (check item r) as [ok|e]; simpl; [|done].
    assert (status ≤ if negb ok && (severity r >? status) then severity r else status)
      as Hle.
    { destruct (negb ok); simpl; [|lia].
      destruct (Z.gtb_spec (severity r) status); lia. }
    destruct (stop r).
    + intros [= <-]. exact Hle.
    + intros Hst. apply IH in Hst. lia.
Qed.

(** Once a matching rule declares [stop], the rules after it are not
    looked at. *)
Lemma apply_rules_from_stop (status : Z) (r : Rule) (rest : list Rule) :
  matches r item host = Ok true → stop r = true →
  apply_rules_from item host status (r :: rest)
  = apply_rules_from item host status [r].
Proof.
  intros Hm Hs. simpl. rewrite Hm. simpl.
  destruct (check item r); simpl; [|done]. by rewrite Hs.
Qed.

(** The same holds wherever the stop rule stands in the list. *)
Lemma apply_rules_from_stop_app (status : Z) (pre : list Rule) (r : Rule)
  (post : list Rule) :
  matches r item host = Ok true → stop r = true →
  apply_rules_from item host status (pre ++ r :: post)%list
  = apply_rules_from item host status (pre ++ [r])%list.
Proof.
  intros Hm Hs. revert status. induction pre as [|q pre IH]; intros status.
  - by apply apply_rules_from_stop.
  - cbn [app apply_rules_from].
    destruct (matches q item host) as [[|]|e]; simpl; [| apply IH | done].
    destruct (check item q) as [ok|e]; simpl; [|done].
    destruct (stop q); [done | apply IH].
Qed.

Lemma matched_and_violated_elem (rule_list : list Rule) (r : Rule) :
  r ∈ matched_and_violated item host rule_list
  ↔ r ∈ considered item host rule_list ∧ matches r item host = Ok true
    ∧ check item r = Ok false.
Proof.
  unfold matched_and_violated. rewrite list_elem_of_In, filter_In, <- list_elem_of_In.
  rewrite andb_true_iff. unfold matched, violated.
  destruct (matches r item host) as [[|]|]; destruct (check item r) as [[|]|];
    split; intros (? & ? & ?); done.
Qed.

(** C1 (amended): [apply_rules] goes through the rules in declaration order,
    up to and including the first matching rule that declares [stop]
    (whatever its check returns), and returns the largest severity among the
    rules gone through that match the part and whose check returns false
    (the test [not ok] of the loop: the opposite of the value that the
    specification calls violates), and 0 when there is none. The rules gone
    through are taken to raise no exception. The rules after a matching
    rule that declares [stop] contribute nothing: the result is that of the
    list cut after that rule. *)
Theorem apply_rules_max_violated (rule_list : list Rule) :
  Forall (evaluates item host) (considered item host rule_list) →
  apply_rules item host rule_list = Ok (max_violated_severity item host rule_list) ∧
  (∀ r, r ∈ matched_and_violated item host rule_list
        ↔ r ∈ considered item host rule_list ∧ matches r item host = Ok true
          ∧ check item r = Ok false) ∧
  (Forall (fun r => 0 ≤ severity r) rule_list →
   is_max_severity (max_violated_severity item host rule_list)
                   (matched_and_violated item host rule_list)) ∧
  (∀ pre r post,
     rule_list = (pre ++ r :: post)%list →
     matches r item host = Ok true → stop r = true →
     apply_rules item host rule_list = apply_rules item host (pre ++ [r])%list).
Proof.
  intros Hev. split; [|split; [|split]].
  - by apply apply_rules_from_spec.
  - intros r. apply matched_and_violated_elem.
  - intros Hpos. apply foldr_max_is_max.
    rewrite Forall_forall in *. intros r Hin.
    by apply Hpos, matched_and_violated_subset.
  - intros pre r post -> Hm Hs. by apply apply_rules_from_stop_app.
Qed.
End ApplyRulesFacts.

Example apply_rules_stop : apply_rules black_toner "printer1" stop_rules = Ok 0.
Proof. vm_compute. reflexivity. Qed.

Example apply_rules_no_stop : apply_rules black_toner "printer1" no_stop_rules = Ok 2.
Proof. vm_compute. reflexivity. Qed.

Example apply_rules_three : apply_rules black_toner "printer1" three_rules = Ok 2.
Proof. vm_compute. reflexivity. Qed.

(** A matching rule whose check returns true, the value that the
    specification calls violates, gives the part nothing: at 75 percent
    against the threshold 70 the status is 0, not the severity 2 of the
    rule. *)
Lemma apply_rules_true_check_not_counted :
  matches (rule toner_or_ink false (Some f70) None 2) black_toner "printer1" = Ok true ∧
  check black_toner (rule toner_or_ink false (Some f70) None 2) = Ok true ∧
  severity (rule toner_or_ink false (Some f70) None 2) = 2 ∧
  apply_rules black_toner "printer1" [rule toner_or_ink false (Some f70) None 2] = Ok 0.
Proof. repeat split; vm_compute; reflexivity. Qed.

(** A matching stop rule whose check returns false counts before it stops
    the loop, and the rule after it, whose check returns true, is not
    reached: the status is 1. *)
Example apply_rules_stop_false_check :
  check black_toner (rule toner_or_ink true (Some f80) None 1) = Ok false ∧
  check black_toner (rule toner_or_ink false (Some f70) None 2) = Ok true ∧
  apply_rules black_toner "printer1"
    [rule toner_or_ink true (Some f80) None 1; rule toner_or_ink false (Some f70) None 2]
  = Ok 1.
Proof. repeat split; vm_compute; reflexivity. Qed.

Lemma apply_rules_max_violated_witness :
  Forall (evaluates black_toner "printer1") (considered black_toner "printer1" three_rules) ∧
  apply_rules black_toner "printer1" three_rules
  = Ok (max_violated_severity black_toner "printer1" three_rules) ∧
  (∀ r, r ∈ matched_and_violated black_toner "printer1" three_rules
        ↔ r ∈ considered black_toner "printer1" three_rules
          ∧ matches r black_toner "printer1" = Ok true
          ∧ check black_toner r = Ok false) ∧
  (Forall (fun r => 0 ≤ severity r) three_rules →
   is_max_severity (max_violated_severity black_toner "printer1" three_rules)
                   (matched_and_violated black_toner "printer1" three_rules)) ∧
  (∀ pre r post,
     three_rules = (pre ++ r :: post)%list →
     matches r black_toner "printer1" = Ok true → stop r = true →
     apply_rules black_toner "printer1" three_rules
     = apply_rules black_toner "printer1" (pre ++ [r])%list).
Proof.
  assert (Forall (evaluates black_toner "printer1")
                 (considered black_toner "printer1" three_rules)) as Hev.
  { change (considered black_toner "printer1" three_rules) with three_rules.
    repeat constructor.
    - exists true. split; [vm_compute; reflexivity|]. intros _. exists true.
      vm_compute. reflexivity.
    - exists true. split; [vm_compute; reflexivity|]. intros _. exists false.
      vm_compute. reflexivity.
    - exists true. split; [vm_compute; reflexivity|]. intros _. exists false.
      vm_compute. reflexivity. }
  split; [exact Hev|].
  exact (apply_rules_max_violated black_toner "printer1" three_rules Hev).
Defined.

(** The largest severity of the three rules is reached: the status is 2. *)
Example max_violated_severity_three :
  max_violated_severity black_toner "printer1" three_rules = 2.
Proof. vm_compute. reflexivity. Qed.

(** ** Rules without a threshold *)

(** A rule without a threshold is not without effect: matching a supply at
    level 150, it makes the check fail, and its severity 2 becomes the status
    of the part. *)
Lemma no_threshold_rule_counts :
  0 ≤ Supply._level black_toner ∧ threshold no_threshold = None ∧
  matches no_threshold black_toner "printer1" = Ok true ∧
  violated black_toner no_threshold = true ∧
  apply_rules black_toner "printer1" [no_threshold] = Ok 2.
Proof. repeat split; vm_compute; congruence. Qed.

(** C3 (amended): for a supply whose level is not a sentinel and a matching
    rule without a threshold, [Supply.check] returns false, which
    [apply_rules] counts as a violation: the rule alone gives its severity (0
    when that is negative), and any status the evaluation returns from that
    rule on is at least its severity. *)
Theorem no_threshold_rule_violated (s : Supply.t) (host : string) (r : Rule)
    (rest : list Rule) :
  0 ≤ Supply._level s → threshold r = None → matches r s host = Ok true →
  check s r = Ok false ∧
  apply_rules s host [r] = Ok (Z.max 0 (severity r)) ∧
  ∀ st, apply_rules s host (r :: rest) = Ok st → severity r ≤ st.
Proof.
  intros Hl Ht Hm.
  assert (check s r = Ok false) as Hc.
  { simpl. apply Supply_check_no_threshold; [lia | lia | done]. }
  assert (∀ status, (if negb false && (severity r >? status) then severity r else status)
                    = Z.max status (severity r)) as Hmax.
  { intros status. cbn [negb andb]. destruct (Z.gtb_spec (severity r) status); lia. }
  split; [exact Hc|]. split.
  - unfold apply_rules. cbn [apply_rules_from]. rewrite Hm, bind_Ok, Hc, bind_Ok, Hmax.
    by destruct (stop r).
  - intros st. unfold apply_rules. cbn [apply_rules_from].
    rewrite Hm, bind_Ok, Hc, bind_Ok, Hmax. destruct (stop r).
    + intros [= <-]. lia.
    + intros Hst. apply apply_rules_from_mono in Hst. lia.
Qed.

Lemma no_threshold_rule_violated_witness :
  0 ≤ Supply._level black_toner ∧ threshold no_threshold = None ∧
  matches no_threshold black_toner "printer1" = Ok true ∧
  check black_toner no_threshold = Ok false ∧
  apply_rules black_toner "printer1" [no_threshold] = Ok (Z.max 0 (severity no_threshold)) ∧
  ∀ st, apply_rules black_toner "printer1" (no_threshold :: stop_rules) = Ok st →
        severity no_threshold ≤ st.
Proof.
  assert (0 ≤ Supply._level black_toner) as Hl by (vm_compute; congruence).
  assert (threshold no_threshold = None) as Ht by reflexivity.
  assert (matches no_threshold black_toner "printer1" = Ok true) as Hm
    by (vm_compute; reflexivity).
  split; [exact Hl|]. split; [exact Ht|]. split; [exact Hm|].
  exact (no_threshold_rule_violated black_toner "printer1" no_threshold stop_rules Hl Ht Hm).
Defined.

(** ** Rule.matches *)

Lemma matches_no_match_section {A} `{SNMPWalkable A} (self : Rule) (o : A) (h : string) :
  match_ self = None → matches self o h = Ok false.
Proof. intros Hm. unfold matches. by rewrite Hm. Qed.

Lemma matches_empty_match_section {A} `{SNMPWalkable A} (self : Rule) (o : A) (h : string) :
  match_ self = Some ∅ → matches self o h = Ok false.
Proof. intros Hm. unfold matches. by rewrite Hm. Qed.

Lemma host_passes_spec (m : gmap string mval) (h : string) :
  from_option str_or_strs true (m !! "host") = true →
  host_passes m h = sub_holds (fun host => String.eqb host h) (m !! "host").
Proof.
  unfold host_passes. destruct (m !! "host") as [[s|l|]|]; simpl; done.
Qed.

Lemma comprehension_strs (typ : string) (l : list mval) :
  forallb is_str l = true →
  comprehension typ l
  = Ok (map (fun e => match e with MStr s => str_in s typ | _ => false end) l).
Proof.
  induction l as [|e l IH]; simpl; [done|].
  intros [He Hl]%andb_true_iff. destruct e; try done.
  simpl. by rewrite IH.
Qed.

Lemma any_map {X} (f : X → bool) (l : list X) : any (map f l) = existsb f l.
Proof. unfold any. induction l as [|x l IH]; simpl; [done|]. by rewrite IH. Qed.

(** The toner-or-ink rule matches a toner cartridge and not the staples. *)
Example matches_toner_cartridge :
  Supply.get_type_str black_toner = Ok "tonerCartridge" ∧
  matches (rule toner_or_ink false None None 2) black_toner "printer1" = Ok true.
Proof. split; vm_compute; reflexivity. Qed.

Example matches_not_staples :
  Supply.get_type_str staples = Ok "staples" ∧
  matches (rule toner_or_ink false None None 2) staples "printer1" = Ok false.
Proof. split; vm_compute; reflexivity. Qed.

Example str_in_case_sensitive : str_in "Toner" "tonerCartridge" = false.
Proof. reflexivity. Qed.

(** A [name] given as a list is not matched on its elements: where the
    specification lets the rule match, the function raises TypeError. *)
Lemma matches_name_list_raises :
  matches_spec (rule name_list false None None 2) black_toner "printer1" = true ∧
  matches (rule name_list false None None 2) black_toner "printer1" = Raise TypeError.
Proof. split; vm_compute; reflexivity. Qed.

(** C2 (amended): [matches] is false for a rule with no match section or an
    empty one; otherwise it is true exactly when every sub-predicate present
    holds, where [host] (equality) and [type] (case-sensitive substring of the
    part's type string) are a string or a list of strings of which some element
    must satisfy it, and [name] is a single string that must be a
    case-sensitive substring of the part's name. *)
Theorem matches_well_typed {A} `{SNMPWalkable A} (self : Rule) (o : A) (h : string) :
  well_typed self o = true →
  matches self o h = Ok (matches_spec self o h).
Proof.
  unfold well_typed, matches, matches_spec, type_string.
  destruct (match_ self) as [m|]; [|done].
  destruct (bool_decide (size m = 0%nat)); [done|]. cbn [orb].
  intros [[Hh Hn]%andb_true_iff Ht]%andb_true_iff.
  rewrite (host_passes_spec m h Hh).
  destruct (sub_holds _ (m !! "host")); cbn [negb andb]; [|done].
  destruct (m !! "name") as [[n|l|]|]; try done; cbn [py_in sub_holds].
  - rewrite bind_Ok. destruct (str_in n (get_name o)); cbn [negb andb]; [|done].
    destruct (m !! "type") as [[ty|l|]|]; try done; cbn [from_option] in Ht.
    + destruct (get_type_str o); [done | by rewrite andb_false_r in Ht].
    + apply andb_true_iff in Ht as [Hl Hok]. destruct (get_type_str o); [|done].
      rewrite bind_Ok, (comprehension_strs _ _ Hl), bind_Ok. cbn [sub_holds].
      by rewrite any_map.
  - rewrite bind_Ok. cbn [negb andb].
    destruct (m !! "type") as [[ty|l|]|]; try done; cbn [from_option] in Ht.
    + destruct (get_type_str o); [done | by rewrite andb_false_r in Ht].
    + apply andb_true_iff in Ht as [Hl Hok]. destruct (get_type_str o); [|done].
      rewrite bind_Ok, (comprehension_strs _ _ Hl), bind_Ok. cbn [sub_holds].
      by rewrite any_map.
Qed.

Lemma matches_well_typed_witness :
  well_typed (rule toner_or_ink false None None 2) black_toner = true ∧
  matches (rule toner_or_ink false None None 2) black_toner "printer1"
  = Ok (matches_spec (rule toner_or_ink false None None 2) black_toner "printer1").
Proof.
  split; [vm_compute; reflexivity|].
  apply matches_well_typed. vm_compute. reflexivity.
Defined.

(** ** Error summary *)

Lemma insert_sorted_perm (x : string * Z) (l : list (string * Z)) :
  insert_sorted x l ≡ₚ x :: l.
Proof.
  induction l as [|y l IH]; simpl; [done|].
  destruct (x.2 <=? y.2); [done|]. rewrite IH. apply Permutation_swap.
Qed.

Lemma sorted_perm (l : list (string * Z)) : sorted l ≡ₚ l.
Proof.
  unfold sorted. induction l as [|x l IH]; simpl; [done|].
  by rewrite insert_sorted_perm, IH.
Qed.

Lemma insert_sorted_ascending (x : string * Z) (l : list (string * Z)) :
  StronglySorted (fun a b => a.2 ≤ b.2) l →
  StronglySorted (fun a b => a.2 ≤ b.2) (insert_sorted x l).
Proof.
  induction 1 as [|y l Hs IH Hy]; simpl.
  - repeat constructor.
  - destruct (Z.leb_spec (x.2) (y.2)) as [Hle|Hgt].
    + constructor; [by constructor|]. constructor; [done|].
      eapply Forall_impl; [exact Hy|]. simpl. intros; lia.
    + constructor; [done|]. rewrite insert_sorted_perm.
      constructor; [lia | done].
Qed.

Lemma sorted_ascending (l : list (string * Z)) :
  StronglySorted (fun a b => a.2 ≤ b.2) (sorted l).
Proof.
  unfold sorted. induction l as [|x l IH]; simpl; [constructor|].
  by apply insert_sorted_ascending.
Qed.

Lemma StronglySorted_snoc {X} (R : X → X → Prop) (l : list X) (x : X) :
  StronglySorted R l → Forall (fun y => R y x) l → StronglySorted R (l ++ [x]).
Proof.
  induction 1 as [|y l Hs IH Hy]; simpl; intros Hx.
  - repeat constructor.
  - inversion Hx as [|? ? Hyx Hlx]; subst. constructor; [by apply IH|].
    apply Forall_app. split; [done | by constructor].
Qed.

Lemma StronglySorted_reverse {X} (R : X → X → Prop) (l : list X) :
  StronglySorted R l → StronglySorted (fun a b => R b a) (reverse l).
Proof.
  induction 1 as [|x l Hs IH Hx]; [constructor|].
  rewrite reverse_cons. apply StronglySorted_snoc; [done|].
  by apply Forall_reverse.
Qed.

Example summary_two_violations :
  set_err_parts ∅ [("Fuser", 1); ("Black Toner", 2)] !! "str_err_parts"
  = Some (JStr "Alert for Black Toner and 1 more failures(s)") ∧
  set_err_parts ∅ [("Fuser", 1); ("Black Toner", 2)] !! "err_parts"
  = Some (JParts [("Black Toner", 2); ("Fuser", 1)]).
Proof. split; vm_compute; reflexivity. Qed.

(** Violations of equal severity come out in the reverse of their order. *)
Example summary_equal_severity :
  set_err_parts ∅ [("Cyan Toner", 2); ("Black Toner", 2)] !! "err_parts"
  = Some (JParts [("Black Toner", 2); ("Cyan Toner", 2)]).
Proof. vm_compute. reflexivity. Qed.

(** The wording of the message for several violations: the text ends in
    "failures(s)", not in "failure(s)". *)
Lemma summary_wording :
  set_err_parts ∅ [("Black Toner", 2); ("Fuser", 1)] !! "str_err_parts"
  ≠ Some (JStr "Alert for Black Toner and 1 more failure(s)").
Proof. vm_compute. discriminate. Qed.

(** C8 (amended): [err_parts] is the list of violations sorted by descending
    severity, and [str_err_parts] is the empty string for no violation,
    "Alert for <name>" for one, and "Alert for <name> and N more failures(s)"
    for N+1 violations, where <name> is the name of the first violation after
    the sort, whose severity is the highest. *)
Theorem set_err_parts_summary (info : gmap string jval) (err_parts : list (string * Z)) :
  ∃ parts,
    set_err_parts info err_parts !! "err_parts" = Some (JParts parts) ∧
    parts ≡ₚ err_parts ∧
    StronglySorted (fun a b => b.2 ≤ a.2) parts ∧
    set_err_parts info err_parts !! "str_err_parts"
    = Some (JStr match parts with
                 | [] => ""
                 | [first] => "Alert for " +:+ first.1
                 | first :: rest =>
                     "Alert for " +:+ first.1 +:+ " and "
                     +:+ pretty (Z.of_nat (length rest)) +:+ " more failures(s)"
                 end).
Proof.
  exists (reverse (sorted err_parts)).
  assert (reverse (sorted err_parts) ≡ₚ err_parts) as Hperm
    by (by rewrite reverse_Permutation, sorted_perm).
  pose proof (StronglySorted_reverse _ _ (sorted_ascending err_parts)) as Hsort.
  unfold set_err_parts.
  destruct (reverse (sorted err_parts)) as [|first rest].
  - rewrite lookup_insert_ne by done. rewrite !lookup_insert_eq. done.
  - destruct rest as [|second rest].
    + simpl. rewrite lookup_insert_ne by done. rewrite !lookup_insert_eq. done.
    + assert ((Z.of_nat (length (first :: second :: rest)) =? 1) = false) as Hlen
        by (apply Z.eqb_neq; cbn [length]; lia).
      rewrite Hlen, lookup_insert_ne by done. rewrite !lookup_insert_eq.
      repeat split; try done.
      by replace (Z.of_nat (length (first :: second :: rest)) - 1)
        with (Z.of_nat (length (second :: rest))) by (cbn [length]; lia).
Qed.

(** ** check_printers *)

Section CheckPrintersFacts.
Variable check_printer : string → list Rule → result (gmap string dval).
Variable now : nat → string.
Variable rule_list : list Rule.

(** The record stored for a host whose transport fails to connect: the
    degraded [info], stamped, over whatever [data] the host had before. *)
Lemma check_one_offline (w : world) (dev : string) :
  check_printer dev rule_list = Raise EasySNMPConnectionError →
  check_one check_printer now rule_list w dev
  = ({| database :=
          <[dev := <["info" := DInfo (<["checked" := JStr (now (ticks w))]>
                                        (offline_info dev))]>
                     (default ∅ (database w !! dev))]> (database w);
        ticks := S (ticks w) |}, None).
Proof.
  intros Hc. unfold check_one. rewrite Hc.
  destruct (database w !! dev) as [d|]; cbn [default];
    rewrite lookup_insert_eq, insert_insert_eq; reflexivity.
Qed.

Lemma check_one_polled (w : world) (dev : string) (d : gmap string dval)
    (info : gmap string jval) :
  check_printer dev rule_list = Ok d → d !! "info" = Some (DInfo info) →
  check_one check_printer now rule_list w dev
  = ({| database :=
          <[dev := <["info" := DInfo (<["checked" := JStr (now (ticks w))]> info)]> d]>
            (database w);
        ticks := S (ticks w) |}, None).
Proof.
  intros Hc Hi. unfold check_one. by rewrite Hc, Hi.
Qed.

Lemma check_one_continues (w : world) (dev : string) :
  polled_or_offline check_printer rule_list dev →
  ∃ data, check_one check_printer now rule_list w dev
          = ({| database := <[dev := data]> (database w); ticks := S (ticks w) |}, None).
Proof.
  intros [Hoff|(d & info & Hc & Hi)].
  - eexists. by apply check_one_offline.
  - eexists. by eapply check_one_polled.
Qed.

Lemma check_printers_app (w : world) (pre post : list string) :
  check_printers check_printer now w (pre ++ post) rule_list
  = match check_printers check_printer now w pre rule_list with
    | (w1, None) => check_printers check_printer now w1 post rule_list
    | (w1, Some e) => (w1, Some e)
    end.
Proof.
  revert w. induction pre as [|dev pre IH]; intros w; simpl; [done|].
  destruct (check_one check_printer now rule_list w dev) as [w' [e|]]; [done | apply IH].
Qed.

(** No connection failure aborts the loop: every host gets its record, and
    the records of other hosts stay. *)
Lemma check_printers_completes (w : world) (h : list string) :
  Forall (polled_or_offline check_printer rule_list) h →
  ∃ w', check_printers check_printer now w h rule_list = (w', None) ∧
        (∀ d, d ∈ h → is_Some (database w' !! d)) ∧
        (∀ d, d ∉ h → database w' !! d = database w !! d) ∧
        (∀ d, is_Some (database w !! d) → is_Some (database w' !! d)).
Proof.
  intros Hall. revert w. induction Hall as [|dev h Hdev _ IH]; intros w.
  - exists w. repeat split; [|done..]. intros d Hd. by apply elem_of_nil in Hd.
  - destruct (check_one_continues w dev Hdev) as [data Hone].
    destruct (IH {| database := <[dev := data]> (database w); ticks := S (ticks w) |})
      as (w' & Hrun & Hin & Hout & Hkeep).
    exists w'. simpl. rewrite Hone. split; [exact Hrun|]. cbn [database] in *.
    repeat split.
    + intros d [->|Hd]%elem_of_cons; [|by apply Hin].
      apply Hkeep. rewrite lookup_insert_eq. by eexists.
    + intros d [Hne Hd]%not_elem_of_cons. rewrite (Hout d Hd).
      by rewrite lookup_insert_ne.
    + intros d Hd. apply Hkeep. destruct (decide (dev = d)) as [->|Hne].
      * rewrite lookup_insert_eq. by eexists.
      * by rewrite lookup_insert_ne.
Qed.

(** C9 (amended): a transport connection failure while checking one host does
    not abort the processing of the remaining hosts, and the record stored for
    the failed host has as [info] the record with max_status 2, the host as
    name, the offline alert, the critical header color and the checked
    timestamp; the other entries of its [data] ([supplies], [trays]) are those
    stored for the host before, and there are none for a host that was not
    stored. *)
Theorem check_printers_offline (w : world) (pre post : list string) (dev : string) :
  Forall (polled_or_offline check_printer rule_list) (pre ++ dev :: post) →
  check_printer dev rule_list = Raise EasySNMPConnectionError →
  dev ∉ post →
  ∃ w1 w',
    check_printers check_printer now w pre rule_list = (w1, None) ∧
    check_printers check_printer now w (pre ++ dev :: post) rule_list = (w', None) ∧
    (∀ d, d ∈ (pre ++ dev :: post)%list → is_Some (database w' !! d)) ∧
    database w' !! dev
    = Some (<["info" := DInfo (<["checked" := JStr (now (ticks w1))]>
                                 (offline_info dev))]>
              (default ∅ (database w1 !! dev))).
Proof.
  intros Hall Hoff Hpost.
  destruct (check_printers_completes w _ Hall) as (w' & Hrun & Hin & _ & _).
  apply Forall_app in Hall as [Hpre Hrest].
  inversion Hrest as [|? ? _ Hposts]; subst.
  destruct (check_printers_completes w _ Hpre) as (w1 & Hrun1 & _).
  exists w1, w'. split; [exact Hrun1|]. split; [exact Hrun|]. split; [exact Hin|].
  rewrite check_printers_app, Hrun1 in Hrun. simpl in Hrun.
  rewrite (check_one_offline w1 dev Hoff) in Hrun.
  match type of Hrun with
  | check_printers _ _ ?w2 _ _ = _ =>
      destruct (check_printers_completes w2 _ Hposts) as (w'' & Hrun2 & _ & Hout & _)
  end.
  rewrite Hrun2 in Hrun. injection Hrun as <-.
  rewrite (Hout dev Hpost). cbn [database]. by rewrite lookup_insert_eq.
Qed.
End CheckPrintersFacts.

(** The fields of the degraded [info] record. *)
Lemma offline_info_fields (dev stamp : string) :
  <["checked" := JStr stamp]> (offline_info dev)
  = list_to_map [("max_status", JInt 2); ("name", JStr dev);
                 ("alerts", JStr "Printer offline"); ("rgb", JStr "#DC143C");
                 ("checked", JStr stamp)].
Proof.
  apply map_eq. intros k. unfold offline_info, COLOR.HEADER_CRITICAL. simpl.
  repeat (rewrite lookup_insert; case_decide; [done|]). done.
Qed.

(** The supplies of a host stored before are not emptied: they stay in the
    record of the failed poll. *)
Lemma offline_keeps_stored_supplies :
  always_offline "printer1" [] = Raise EasySNMPConnectionError ∧
  (database (check_printers always_offline midnight stored_world ["printer1"] []).1
     !! "printer1") ≫= (fun data => data !! "supplies")
  = Some (DParts [stored_toner]).
Proof. split; vm_compute; reflexivity. Qed.

(** A host that was not stored gets a record with the [info] entry alone. *)
Example offline_new_host :
  database (check_printers always_offline midnight empty_world ["printer1"] []).1
    !! "printer1"
  = Some {[ "info" := DInfo (<["checked" := JStr (midnight 0)]> (offline_info "printer1")) ]}.
Proof. vm_compute. reflexivity. Qed.

Lemma check_printers_offline_witness :
  Forall (polled_or_offline always_offline []) ([] ++ "printer1" :: ["printer2"]) ∧
  always_offline "printer1" [] = Raise EasySNMPConnectionError ∧
  ("printer1" ∉ ["printer2"]) ∧
  ∃ w1 w',
    check_printers always_offline midnight stored_world [] [] = (w1, None) ∧
    check_printers always_offline midnight stored_world ([] ++ "printer1" :: ["printer2"]) []
    = (w', None) ∧
    (∀ d, d ∈ ([] ++ "printer1" :: ["printer2"])%list → is_Some (database w' !! d)) ∧
    database w' !! "printer1"
    = Some (<["info" := DInfo (<["checked" := JStr (midnight (ticks w1))]>
                                 (offline_info "printer1"))]>
              (default ∅ (database w1 !! "printer1"))).
Proof.
  assert (Forall (polled_or_offline always_offline [])
                 ([] ++ "printer1" :: ["printer2"])) as Hall
    by (repeat constructor; left; reflexivity).
  assert ("printer1" ∉ ["printer2"]) as Hpost
    by (apply not_elem_of_cons; split; [discriminate | apply not_elem_of_nil]).
  split; [exact Hall|]. split; [reflexivity|]. split; [exact Hpost|].
  exact (check_printers_offline always_offline midnight [] stored_world []
           ["printer2"] "printer1" Hall eq_refl Hpost).
Defined.

(** ** Entity assembly *)

Section ParseDataFacts.
Local Open Scope nat_scope.

Lemma NoDup_fst_functional {K V} (l : list (K * V)) (k : K) (a a' : V) :
  NoDup l.*1 → (k, a) ∈ l → (k, a') ∈ l → a = a'.
Proof.
  induction l as [|[k0 a0] l IH]; simpl; intros Hnd Ha Ha'.
  - by apply elem_of_nil in Ha.
  - apply NoDup_cons in Hnd as [Hk0 Hnd].
    apply elem_of_cons in Ha as [Ha|Ha];
      apply elem_of_cons in Ha' as [Ha'|Ha']; simplify_eq; try done.
    + destruct Hk0. by apply (list_elem_of_fmap_2 fst _ (k0, a')).
    + destruct Hk0. by apply (list_elem_of_fmap_2 fst _ (k0, a)).
    + by apply IH.
Qed.

Lemma NoDup_snd_injective {K V} (l : list (K * V)) (k k' : K) (a : V) :
  NoDup l.*2 → (k, a) ∈ l → (k', a) ∈ l → k = k'.
Proof.
  induction l as [|[k0 a0] l IH]; simpl; intros Hnd Hk Hk'.
  - by apply elem_of_nil in Hk.
  - apply NoDup_cons in Hnd as [Ha0 Hnd].
    apply elem_of_cons in Hk as [Hk|Hk];
      apply elem_of_cons in Hk' as [Hk'|Hk']; simplify_eq; try done.
    + destruct Ha0. by apply (list_elem_of_fmap_2 snd _ (k', a0)).
    + destruct Ha0. by apply (list_elem_of_fmap_2 snd _ (k, a0)).
    + by apply IH.
Qed.

Lemma structure_get_elem (d : list (string * string)) (key at_ : string) :
  NoDup d.*1 → (key, at_) ∈ d → structure_get d key = Ok at_.
Proof.
  induction d as [|[k a] d IH]; simpl; intros Hnd Hin.
  - by apply elem_of_nil in Hin.
  - apply NoDup_cons in Hnd as [Hk Hnd].
    apply elem_of_cons in Hin as [[= -> ->]|Hin].
    + by rewrite String.eqb_refl.
    + destruct (String.eqb_spec k key) as [->|Hne]; [|by apply IH].
      destruct Hk. by apply (list_elem_of_fmap_2 fst _ (key, at_)).
Qed.

Lemma STRUCTURE_keys_NoDup (t : typ) : NoDup (STRUCTURE t).*1.
Proof. destruct t; apply (bool_decide_unpack _); vm_compute; exact I. Qed.

Lemma STRUCTURE_attrs_NoDup (t : typ) : NoDup (STRUCTURE t).*2.
Proof. destruct t; apply (bool_decide_unpack _); vm_compute; exact I. Qed.

(** A fresh object has every attribute of its structure set to [None]. *)
Lemma new_unset (t : typ) (key at_ : string) :
  (key, at_) ∈ STRUCTURE t → new t !! ("_" +:+ at_) = Some PNone.
Proof.
  destruct t; simpl; intros Hin;
    repeat (apply elem_of_cons in Hin as [[= -> ->]|Hin]; [vm_compute; reflexivity|]);
    by apply elem_of_nil in Hin.
Qed.

Lemma parse_entries_spec (t : typ) (key at_ : string) (entries : list entry) :
  structure_get (STRUCTURE t) key = Ok at_ →
  ∀ (idx : nat) (items : list (gmap string pyval)),
    idx ≤ length items →
    ∃ items',
      parse_entries t key idx entries items = Ok items' ∧
      length items' = length items `max` (idx + length entries) ∧
      (∀ i e, entries !! i = Some e →
              items' !! (idx + i)
              = Some (setattr (default (new t) (items !! (idx + i)))
                              ("_" +:+ at_) (decode e))) ∧
      (∀ i, i < idx ∨ idx + length entries ≤ i → items' !! i = items !! i).
Proof.
  intros Hget. induction entries as [|e rest IH]; intros idx items Hidx.
  - exists items. simpl. repeat split; [lia | done..].
  - cbn [parse_entries]. unfold add_data. rewrite Hget, !bind_Ok.
    destruct (Z.gtb_spec (Z.of_nat idx) (Z.of_nat (length items) - 1)) as [Hgt|Hle].
    + assert (idx = length items) as Heq by lia.
      destruct (IH (S idx) (items ++ [setattr (new t) ("_" +:+ at_) (decode e)])%list)
        as (items' & Hrun & Hlen & Hset & Hkeep).
      { rewrite length_app. simpl. lia. }
      exists items'. split; [exact Hrun|]. rewrite length_app in Hlen. simpl in Hlen.
      split; [simpl; lia|]. split.
      * intros [|i] e' He'.
        -- injection He' as <-. rewrite Nat.add_0_r, Hkeep by lia.
           rewrite (lookup_ge_None_2 items idx) by lia. cbn [default].
           subst idx. by rewrite lookup_app_r, Nat.sub_diag by lia.
        -- rewrite <- Nat.add_succ_comm, (Hset i e' He').
           rewrite (lookup_ge_None_2 (items ++ _)%list) by (rewrite length_app; simpl; lia).
           by rewrite (lookup_ge_None_2 items) by lia.
      * intros i Hi. simpl in Hi. rewrite Hkeep by lia.
        destruct Hi as [Hi|Hi].
        -- by rewrite lookup_app_l by lia.
        -- rewrite (lookup_ge_None_2 (items ++ _)%list) by (rewrite length_app; simpl; lia).
           by rewrite (lookup_ge_None_2 items) by lia.
    + assert (idx < length items) as Hlt by lia.
      destruct (lookup_lt_is_Some_2 items idx Hlt) as [item Hitem].
      rewrite Hitem, bind_Ok.
      destruct (IH (S idx) (<[idx := setattr item ("_" +:+ at_) (decode e)]> items))
        as (items' & Hrun & Hlen & Hset & Hkeep).
      { rewrite length_insert. lia. }
      exists items'. split; [exact Hrun|]. rewrite length_insert in Hlen.
      split; [simpl; lia|]. split.
      * intros [|i] e' He'.
        -- injection He' as <-. rewrite Nat.add_0_r, Hkeep by lia.
           by rewrite list_lookup_insert_eq, Hitem by lia.
        -- rewrite <- Nat.add_succ_comm, (Hset i e' He').
           by rewrite list_lookup_insert_ne by lia.
      * intros i Hi. simpl in Hi. rewrite Hkeep by lia.
        by rewrite list_lookup_insert_ne by lia.
Qed.
End ParseDataFacts.

Section ParseKeys.
Local Open Scope nat_scope.
Variable t : typ.
Variable walk : string → result (list entry).
Variable seqs : string → list entry.

Lemma max_list_with_snoc {X} (f : X → nat) (l : list X) (x : X) :
  max_list_with f (l ++ [x])%list = max_list_with f l `max` f x.
Proof. induction l as [|y l IH]; simpl; lia. Qed.

Lemma max_list_with_elem_of_le {X} (f : X → nat) (l : list X) (x : X) :
  x ∈ l → f x ≤ max_list_with f l.
Proof. induction 1; simpl; lia. Qed.

Lemma attr_value_beyond (key : string) (i : nat) :
  length (seqs key) ≤ i → attr_value seqs key i = PNone.
Proof. intros Hi. unfold attr_value. by rewrite lookup_ge_None_2. Qed.

Lemma assembled_step (done : list string) (key at_ : string)
    (items items' : list (gmap string pyval)) :
  (key, at_) ∈ STRUCTURE t → key ∉ done →
  assembled t seqs done items →
  length items' = length items `max` (0 + length (seqs key)) →
  (∀ i e, seqs key !! i = Some e →
          items' !! (0 + i)
          = Some (setattr (default (new t) (items !! (0 + i)))
                          ("_" +:+ at_) (decode e))) →
  (∀ i, i < 0 ∨ 0 + length (seqs key) ≤ i → items' !! i = items !! i) →
  assembled t seqs (done ++ [key])%list items'.
Proof.
  intros Hkey Hfresh [Hlen Hattr] Hlen' Hset Hkeep. split.
  - rewrite max_list_with_snoc. lia.
  - intros i item' k a Hi Hka.
    assert (k = key → a = at_) as Hsame.
    { intros ->. eapply NoDup_fst_functional; [apply STRUCTURE_keys_NoDup|done..]. }
    assert (k ≠ key → "_" +:+ a ≠ "_" +:+ at_) as Hother.
    { intros Hne Heq. injection Heq as Heq. change (a = at_) in Heq. subst a. apply Hne.
      eapply NoDup_snd_injective; [apply STRUCTURE_attrs_NoDup|done..]. }
    assert (k ≠ key → bool_decide (k ∈ (done ++ [key])%list) = bool_decide (k ∈ done))
      as Hmem.
    { intros Hne. apply bool_decide_ext. rewrite elem_of_app, list_elem_of_singleton.
      split; [intros [Hin|Heq]; done | by left]. }
    destruct (seqs key !! i) as [e|] eqn:He.
    + specialize (Hset i e He). simpl in Hset. rewrite Hset in Hi.
      injection Hi as <-. unfold setattr.
      destruct (decide (k = key)) as [->|Hne].
      * rewrite (Hsame eq_refl), lookup_insert_eq.
        rewrite bool_decide_eq_true_2
          by (rewrite elem_of_app, list_elem_of_singleton; by right).
        unfold attr_value. by rewrite He.
      * rewrite lookup_insert_ne by (intros Heq; by apply (Hother Hne)).
        rewrite (Hmem Hne).
        destruct (items !! i) as [item|] eqn:Hitem; cbn [default].
        -- by apply Hattr.
        -- rewrite (new_unset t k a Hka).
           destruct (bool_decide_reflect (k ∈ done)) as [Hin|Hnin]; [|done].
           rewrite attr_value_beyond; [done|].
           apply lookup_ge_None_1 in Hitem.
           pose proof (max_list_with_elem_of_le (fun key => length (seqs key)) _ _ Hin).
           simpl in *. lia.
    + apply lookup_ge_None_1 in He.
      rewrite Hkeep in Hi by (right; simpl; lia).
      rewrite (Hattr i item' k a Hi Hka).
      destruct (decide (k = key)) as [->|Hne].
      * rewrite bool_decide_eq_false_2 by done.
        rewrite bool_decide_eq_true_2
          by (rewrite elem_of_app, list_elem_of_singleton; by right).
        by rewrite attr_value_beyond.
      * by rewrite (Hmem Hne).
Qed.

Lemma parse_keys_spec (todo done : list string) (items : list (gmap string pyval)) :
  NoDup (done ++ todo)%list →
  (∀ key, key ∈ todo → key ∈ (STRUCTURE t).*1 ∧ walk key = Ok (seqs key)) →
  assembled t seqs done items →
  ∃ items', parse_keys t walk todo items = Ok items' ∧
            assembled t seqs (done ++ todo)%list items'.
Proof.
  revert done items. induction todo as [|key rest IH]; intros done items Hnd Hwalk Hinv.
  - exists items. by rewrite app_nil_r.
  - destruct (Hwalk key (list_elem_of_here _ _)) as [Hkey Hseq].
    apply list_elem_of_fmap in Hkey as ([k at_] & -> & Hka). simpl in *.
    pose proof (structure_get_elem _ _ _ (STRUCTURE_keys_NoDup t) Hka) as Hget.
    destruct (parse_entries_spec t k at_ (seqs k) Hget 0 items)
      as (items1 & Hrun & Hlen & Hset & Hkeep); [lia|].
    rewrite Hseq, bind_Ok, Hrun, bind_Ok.
    assert (k ∉ done) as Hfresh.
    { apply NoDup_app in Hnd as (_ & Hdisj & _). intros Hin.
      apply (Hdisj k Hin), list_elem_of_here. }
    destruct (IH (done ++ [k])%list items1) as (items' & Hrun' & Hinv').
    + by rewrite <- app_assoc.
    + intros key Hin. apply Hwalk. by apply list_elem_of_further.
    + by eapply assembled_step.
    + exists items'. split; [exact Hrun'|]. by rewrite <- app_assoc in Hinv'.
Qed.

(** C10: assembling entities from field sequences of different lengths never
    raises; there are as many entities as the longest sequence has entries,
    the i-th entry of a field's sequence sets that field's attribute of the
    i-th entity, and an attribute whose field sequence ends before the
    entity's index stays unset ([None]). *)
Theorem parse_data_mismatched :
  (∀ key, key ∈ (STRUCTURE t).*1 → walk key = Ok (seqs key)) →
  ∃ items,
    _parse_data t walk = Ok items ∧
    length items = max_list_with (fun key => length (seqs key)) (STRUCTURE t).*1 ∧
    (∀ key at_ i e,
       (key, at_) ∈ STRUCTURE t → seqs key !! i = Some e →
       ∃ item, items !! i = Some item ∧ item !! ("_" +:+ at_) = Some (decode e)) ∧
    (∀ key at_ i item,
       (key, at_) ∈ STRUCTURE t → items !! i = Some item → length (seqs key) ≤ i →
       item !! ("_" +:+ at_) = Some PNone).
Proof.
  intros Hwalk.
  destruct (parse_keys_spec (STRUCTURE t).*1 [] []) as (items & Hrun & Hlen & Hattr).
  - apply STRUCTURE_keys_NoDup.
  - intros key Hin. split; [done | by apply Hwalk].
  - split; [done|]. intros i item key at_ Hi. by rewrite lookup_nil in Hi.
  - simpl in *. exists items. split; [exact Hrun|]. split; [exact Hlen|].
    assert (∀ key at_, (key, at_) ∈ STRUCTURE t → key ∈ (STRUCTURE t).*1) as Hkeys.
    { intros key at_ Hka. by apply (list_elem_of_fmap_2 fst _ (key, at_)). }
    split.
    + intros key at_ i e Hka He.
      pose proof (max_list_with_elem_of_le (fun key => length (seqs key)) _ _
                    (Hkeys key at_ Hka)) as Hle.
      pose proof (lookup_lt_Some _ _ _ He) as Hlt. simpl in Hle.
      destruct (lookup_lt_is_Some_2 items i) as [item Hitem]; [lia|].
      exists item. split; [done|]. rewrite (Hattr i item key at_ Hitem Hka).
      rewrite bool_decide_eq_true_2 by eauto. unfold attr_value. by rewrite He.
    + intros key at_ i item Hka Hitem Hi.
      rewrite (Hattr i item key at_ Hitem Hka).
      rewrite bool_decide_eq_true_2 by eauto. by rewrite attr_value_beyond.
Qed.
End ParseKeys.

(** Two levels and three names: three trays, the third without a level. *)
Example parse_data_trays :
  ∃ tray1 tray2 tray3,
    _parse_data TrayT tray_walk = Ok [tray1; tray2; tray3] ∧
    tray1 !! "_name" = Some (PStr "Tray 1") ∧ tray1 !! "_level" = Some (PInt 1) ∧
    tray3 !! "_name" = Some (PStr "Tray 3") ∧ tray3 !! "_level" = Some PNone ∧
    tray3 !! "_status" = Some PNone.
Proof. do 3 eexists. repeat split; vm_compute; reflexivity. Qed.

Lemma parse_data_mismatched_witness :
  (∀ key, key ∈ (STRUCTURE TrayT).*1 → tray_walk key = Ok (tray_seqs key)) ∧
  ∃ items,
    _parse_data TrayT tray_walk = Ok items ∧
    length items
    = max_list_with (fun key => length (tray_seqs key)) (STRUCTURE TrayT).*1 ∧
    (∀ key at_ i e,
       (key, at_) ∈ STRUCTURE TrayT → tray_seqs key !! i = Some e →
       ∃ item, items !! i = Some item ∧ item !! ("_" +:+ at_) = Some (decode e)) ∧
    (∀ key at_ i item,
       (key, at_) ∈ STRUCTURE TrayT → items !! i = Some item →
       (length (tray_seqs key) ≤ i)%nat →
       item !! ("_" +:+ at_) = Some PNone).
Proof.
  assert (∀ key, key ∈ (STRUCTURE TrayT).*1 → tray_walk key = Ok (tray_seqs key))
    as Hwalk.
  { intros key Hin. simpl in Hin.
    repeat (apply elem_of_cons in Hin as [->|Hin]; [reflexivity|]).
    by apply elem_of_nil in Hin. }
  split; [exact Hwalk|].
  exact (parse_data_mismatched TrayT tray_walk tray_seqs Hwalk).
Defined.

(** * Further properties *)

(** ** Decoding of walked values *)

Lemma lstrip_spec (s : string) :
  ∃ pre, s = pre +:+ lstrip s ∧ all_space pre = true ∧
         starts_with_space (lstrip s) = false.
Proof.
  induction s as [|c s (pre & Hs & Hpre & Hhead)]; simpl.
  - by exists "".
  - destruct (is_space c) eqn:Hc.
    + exists (String c pre). split; [|split; [|done]].
      * change (String c s = String c (pre +:+ lstrip s)). by rewrite <- Hs.
      * unfold all_space in *. simpl. by rewrite Hc.
    + exists "". split; [done|]. split; [done|]. by simpl.
Qed.

Lemma rstrip_spec (s : string) :
  ∃ post, s = rstrip s +:+ post ∧ all_space post = true ∧
          ends_with_space (rstrip s) = false.
Proof.
  induction s as [|c s (post & Hs & Hpost & Hlast)]; cbn [rstrip].
  - by exists "".
  - destruct (rstrip s) as [|d t] eqn:Hr.
    + change ("" +:+ post) with post in Hs. destruct (is_space c) eqn:Hc.
      * exists (String c post). split; [|split; [|done]].
        -- by rewrite <- Hs.
        -- unfold all_space in *. simpl. by rewrite Hc.
      * exists post. split; [|split; [done|]].
        -- change (String c s = String c post). by rewrite <- Hs.
        -- by simpl.
    + exists post. split; [|split; [done|done]].
      change (String c s = String c (String d t +:+ post)). by rewrite <- Hs.
Qed.

Lemma rstrip_keeps_head (s : string) :
  starts_with_space s = false → starts_with_space (rstrip s) = false.
Proof.
  destruct s as [|c s]; [done|]. cbn [rstrip starts_with_space]. intros Hc.
  destruct (rstrip s); [by rewrite Hc | done].
Qed.

Lemma append_assoc (a b c : string) : (a +:+ b) +:+ c = a +:+ (b +:+ c).
Proof.
  induction a as [|x a IH]; [done|].
  change (String x ((a +:+ b) +:+ c) = String x (a +:+ (b +:+ c))). by rewrite IH.
Qed.

(** X1: [strip] takes off a run of whitespace at each end and nothing else,
    and what is left neither starts nor ends with whitespace. *)
Theorem strip_trims_both_ends (s : string) :
  ∃ pre post,
    s = pre +:+ strip s +:+ post ∧
    all_space pre = true ∧ all_space post = true ∧
    starts_with_space (strip s) = false ∧ ends_with_space (strip s) = false.
Proof.
  unfold strip.
  destruct (lstrip_spec s) as (pre & Hs & Hpre & Hhead).
  destruct (rstrip_spec (lstrip s)) as (post & Hl & Hpost & Hlast).
  exists pre, post. repeat split; try done; [|by apply rstrip_keeps_head].
  rewrite Hs at 1. by rewrite Hl at 1.
Qed.

Lemma remove_nul_has_no_nul (s : string) : has_nul (remove_nul s) = false.
Proof.
  unfold has_nul. induction s as [|c s IH]; [done|]. simpl.
  destruct (Ascii.eqb c zero) eqn:Hc; [done|]. simpl. by rewrite Hc.
Qed.

(** X2: for an entry whose type is not INTEGER, the value that [add_data]
    stores is a text without NUL characters. *)
Theorem decode_no_nul (snmp_type value : string) :
  snmp_type ≠ "INTEGER" →
  ∃ text, decode (Text snmp_type value) = PStr text ∧ has_nul text = false.
Proof.
  intros _. eexists. split; [done|]. apply remove_nul_has_no_nul.
Qed.

Lemma decode_no_nul_witness :
  "OCTETSTR" ≠ "INTEGER" ∧
  ∃ text, decode (Text "OCTETSTR" (String zero " Tray 1")) = PStr text
          ∧ has_nul text = false.
Proof.
  assert ("OCTETSTR" ≠ "INTEGER") as Hty by discriminate.
  split; [exact Hty|].
  exact (decode_no_nul "OCTETSTR" (String zero " Tray 1") Hty).
Defined.

(** Taking the NUL characters out comes after the stripping, and can leave
    whitespace at the start. *)
Example decode_nul_then_space :
  decode (Text "OCTETSTR" (String zero " Tray 1")) = PStr " Tray 1".
Proof. reflexivity. Qed.

(** ** get_data *)

Lemma prefix_underscore (att : string) :
  String.prefix "_" att = true → att = "_" +:+ drop_first att.
Proof.
  intros [post ->]%prefix_app. reflexivity.
Qed.

Lemma prefix_underscore_app (k : string) : String.prefix "_" ("_" +:+ k) = true.
Proof. apply prefix_app. by exists k. Qed.

Lemma get_data_lookup (self : gmap string pyval) (k : string) :
  get_data self !! k = self !! ("_" +:+ k).
Proof.
  unfold get_data. revert k.
  apply (map_fold_weak_ind (fun r m => ∀ k, r !! k = m !! ("_" +:+ k))).
  - intros k. by rewrite !lookup_empty.
  - intros att v m r Hatt IH k.
    destruct (String.prefix "_" att) eqn:Hp.
    + apply prefix_underscore in Hp.
      destruct (decide (drop_first att = k)) as [<-|Hne].
      * by rewrite lookup_insert_eq, <- Hp, lookup_insert_eq.
      * rewrite !lookup_insert_ne; [apply IH| |done].
        rewrite Hp. intros Heq. apply Hne.
        change (String "_" (drop_first att) = String "_" k) in Heq. by injection Heq.
    + rewrite lookup_insert_ne; [apply IH|].
      intros ->. by rewrite prefix_underscore_app in Hp.
Qed.

(** X3: what [add_data] stores for a field identifier, [get_data] gives back
    under the attribute name of that identifier, and the other entries of the
    dict are as before. *)
Theorem get_data_add_data (t : typ) (self self' : gmap string pyval)
    (key at_ : string) (e : entry) :
  structure_get (STRUCTURE t) key = Ok at_ →
  add_data t self key e = Ok self' →
  get_data self' !! at_ = Some (decode e) ∧
  ∀ k, k ≠ at_ → get_data self' !! k = get_data self !! k.
Proof.
  intros Hget. unfold add_data. rewrite Hget, bind_Ok. intros [= <-].
  unfold setattr. split.
  - by rewrite get_data_lookup, lookup_insert_eq.
  - intros k Hk. rewrite !get_data_lookup, lookup_insert_ne; [done|].
    intros Heq. apply Hk.
    change (String "_" at_ = String "_" k) in Heq. by injection Heq.
Qed.

Lemma get_data_add_data_witness :
  structure_get (STRUCTURE TrayT) "1.3.6.1.2.1.43.8.2.1.18" = Ok "name" ∧
  add_data TrayT (new TrayT) "1.3.6.1.2.1.43.8.2.1.18" (Text "OCTETSTR" " Tray 1 ")
  = Ok (setattr (new TrayT) "_name" (PStr "Tray 1")) ∧
  get_data (setattr (new TrayT) "_name" (PStr "Tray 1")) !! "name"
  = Some (decode (Text "OCTETSTR" " Tray 1 ")) ∧
  ∀ k, k ≠ "name" →
       get_data (setattr (new TrayT) "_name" (PStr "Tray 1")) !! k
       = get_data (new TrayT) !! k.
Proof.
  split; [reflexivity|]. split; [reflexivity|].
  exact (get_data_add_data TrayT (new TrayT) _ "1.3.6.1.2.1.43.8.2.1.18" "name"
           (Text "OCTETSTR" " Tray 1 ") eq_refl eq_refl).
Defined.

(** A tray's [type] attribute has no underscore and is not in the dict. *)
Example get_data_new_tray :
  new TrayT !! "type" = Some (PStr "tray") ∧
  get_data (new TrayT)
  = list_to_map [("level", PNone); ("status", PNone); ("paper", PNone); ("name", PNone)].
Proof. split; vm_compute; reflexivity. Qed.

(** ** Tray status text *)

(** X4: a status code made of the four flag bits and a base state 0 to 6
    reads as the phrases of its flags, most significant first, then the
    phrase of its base state, joined by ", ". *)
Theorem status_str_flags (tr : Tray.t) (transition offline critical noncritical : bool)
    (state : Z) :
  0 ≤ state ≤ 6 →
  Tray._status tr
  = 64 * Z.b2z transition + 32 * Z.b2z offline + 16 * Z.b2z critical
    + 8 * Z.b2z noncritical + state →
  _get_status_str tr
  = join ", " (flag_texts transition offline critical noncritical ++ [base_name state]).
Proof.
  intros Hstate Hstatus. unfold _get_status_str. rewrite Hstatus.
  assert (state = 0 ∨ state = 1 ∨ state = 2 ∨ state = 3 ∨ state = 4 ∨ state = 5
          ∨ state = 6) as Hcases by lia.
  destruct transition, offline, critical, noncritical;
    repeat (destruct Hcases as [->|Hcases]; [vm_compute; reflexivity|]);
    subst; vm_compute; reflexivity.
Qed.

Lemma status_str_flags_witness :
  0 ≤ 4 ≤ 6 ∧
  Tray._status (tray 28)
  = 64 * Z.b2z false + 32 * Z.b2z false + 16 * Z.b2z true + 8 * Z.b2z true + 4 ∧
  _get_status_str (tray 28)
  = join ", " (flag_texts false false true true ++ [base_name 4]).
Proof.
  split; [lia|]. split; [reflexivity|].
  exact (status_str_flags (tray 28) false false true true 4 ltac:(lia) eq_refl).
Defined.

Lemma status_text_distinct :
  forallb (fun i => forallb (fun j => negb (String.eqb (status_text i) (status_text j))
                                      || (i =? j))
                            (seqZ 0 128))
          (seqZ 0 128) = true.
Proof. vm_compute. reflexivity. Qed.

(** X5: two status codes from 0 to 127 with the same text are the same
    code. *)
Theorem status_str_injective (tr1 tr2 : Tray.t) :
  0 ≤ Tray._status tr1 ≤ 127 → 0 ≤ Tray._status tr2 ≤ 127 →
  _get_status_str tr1 = _get_status_str tr2 →
  Tray._status tr1 = Tray._status tr2.
Proof.
  unfold _get_status_str. intros H1 H2 Heq.
  pose proof status_text_distinct as Hall.
  rewrite forallb_forall in Hall.
  specialize (Hall (Tray._status tr1)). rewrite forallb_forall in Hall.
  assert (∀ z, 0 ≤ z ≤ 127 → In z (seqZ 0 128)) as Hin.
  { intros z Hz. apply list_elem_of_In, elem_of_seqZ. lia. }
  specialize (Hall (Hin _ H1) _ (Hin _ H2)).
  rewrite Heq, String.eqb_refl in Hall. simpl in Hall. by apply Z.eqb_eq.
Qed.

Lemma status_str_injective_witness :
  0 ≤ Tray._status (tray 28) ≤ 127 ∧ 0 ≤ Tray._status (tray 28) ≤ 127 ∧
  _get_status_str (tray 28) = _get_status_str (tray 28) ∧
  Tray._status (tray 28) = Tray._status (tray 28).
Proof.
  assert (0 ≤ Tray._status (tray 28) ≤ 127) as Hr by (simpl; lia).
  split; [exact Hr|]. split; [exact Hr|]. split; [reflexivity|].
  exact (status_str_injective (tray 28) (tray 28) Hr Hr eq_refl).
Defined.

Lemma base_state_none (status : Z) : status < 0 ∨ 6 < status → base_state status = "".
Proof.
  intros Hs. unfold base_state.
  repeat (match goal with |- context [?a =? ?b] => destruct (Z.eqb_spec a b); [lia|] end).
  reflexivity.
Qed.

(** X6: outside its range the status has no base state: a negative code
    reads as the empty text, and every code from 127 on as the four flags. *)
Theorem status_str_out_of_range (tr : Tray.t) :
  (Tray._status tr < 0 → _get_status_str tr = "") ∧
  (127 ≤ Tray._status tr → _get_status_str tr = all_flags).
Proof.
  unfold _get_status_str, status_text, peel. split; intros Hs.
  - repeat (match goal with
            | |- context [?a >=? ?b] => destruct (Z.geb_spec a b); [lia|]
            end).
    by rewrite base_state_none by lia.
  - repeat (match goal with
            | |- context [?a >=? ?b] => destruct (Z.geb_spec a b); [|lia]
            end).
    by rewrite base_state_none by lia.
Qed.

(** ** Self-reported severity, by the walked codes *)

Lemma maximum_code_ge (codes : list Z) (k : Z) :
  0 < k → (k ≤ maximum_code codes ↔ ∃ c, c ∈ codes ∧ k ≤ c).
Proof.
  intros Hk. unfold maximum_code. induction codes as [|c codes IH]; simpl.
  - split; [lia | intros (c & Hc & _); by apply elem_of_nil in Hc].
  - split.
    + intros Hmax. destruct (Z_le_dec k c) as [Hc|Hc].
      * exists c. split; [apply list_elem_of_here | done].
      * destruct (proj1 IH) as (c' & Hin & Hle); [lia|].
        exists c'. split; [by apply list_elem_of_further | done].
    + intros (c' & [->|Hin]%elem_of_cons & Hle); [lia|].
      assert (k ≤ foldr Z.max 0 codes) by (apply IH; eauto). lia.
Qed.

(** X7: the self-reported severity is 0, 1 or 2; it is 1 exactly when some
    walked code is 4 or more, and 2 exactly when the code 3 is walked and no
    code above it: a warning code hides a critical one. *)
Theorem max_severity_level_by_codes (codes : list Z) :
  0 ≤ _get_max_severity_level codes ≤ 2 ∧
  (_get_max_severity_level codes = 1 ↔ ∃ c, c ∈ codes ∧ 4 ≤ c) ∧
  (_get_max_severity_level codes = 2 ↔ 3 ∈ codes ∧ ∀ c, c ∈ codes → c ≤ 3).
Proof.
  destruct (max_severity_level_cases codes) as (H4 & H3 & H0).
  pose proof (maximum_code_ge codes 4 ltac:(lia)) as Hge4.
  pose proof (maximum_code_ge codes 3 ltac:(lia)) as Hge3.
  assert (maximum_code codes < 3 ∨ maximum_code codes = 3 ∨ 4 ≤ maximum_code codes)
    as [Hm|[Hm|Hm]] by lia.
  - rewrite (H0 Hm). split; [lia|]. split; (split; [done|]).
    + intros Hex. apply Hge4 in Hex. lia.
    + intros [Hin _].
      assert (3 ≤ maximum_code codes) by (apply Hge3; exists 3; split; [done|lia]).
      lia.
  - rewrite (H3 Hm). split; [lia|]. split; (split; try done).
    + intros Hex. apply Hge4 in Hex. lia.
    + intros _. destruct (proj1 Hge3 ltac:(lia)) as (c & Hin & Hc). split.
      * assert (¬ 4 ≤ c) by (intros Hc4; assert (4 ≤ maximum_code codes)
                                by (apply Hge4; exists c; split; [done|lia]); lia).
        by replace 3 with c by lia.
      * intros c' Hin'. destruct (Z_le_dec c' 3); [done|].
        assert (4 ≤ maximum_code codes) by (apply Hge4; exists c'; split; [done|lia]).
        lia.
  - rewrite (H4 Hm). split; [lia|]. split; (split; try done).
    + intros _. by apply Hge4.
    + intros [_ Hall]. destruct (proj1 Hge4 Hm) as (c & Hin & Hc).
      specialize (Hall c Hin). lia.
Qed.

(** A critical code next to a warning code. *)
Example max_severity_warning_hides_critical : _get_max_severity_level [3; 4] = 1.
Proof. reflexivity. Qed.

(** ** The tables of a supply *)

Lemma dict_get_is_ok {V} (d : list (Z * V)) (k : Z) :
  is_ok (dict_get d k) = true ↔ k ∈ d.*1.
Proof.
  induction d as [|[k0 v] d IH]; simpl.
  - split; [done | intros Hin; by apply elem_of_nil in Hin].
  - rewrite elem_of_cons. destruct (Z.eqb_spec k0 k) as [->|Hne]; simpl.
    + split; [by left | done].
    + rewrite IH. split; [by right | intros [->|Hin]; done].
Qed.

Lemma dict_get_KeyError {V} (d : list (Z * V)) (k : Z) :
  is_ok (dict_get d k) = false → dict_get d k = Raise KeyError.
Proof.
  induction d as [|[k0 v] d IH]; simpl; [done|]. by destruct (k0 =? k).
Qed.

(** X8: the type of a supply has a text exactly for the codes 1 to 34; any
    other code raises KeyError. *)
Theorem get_type_str_domain (s : Supply.t) :
  (1 ≤ Supply._type s ≤ 34 → ∃ typ, Supply.get_type_str s = Ok typ) ∧
  (Supply._type s < 1 ∨ 34 < Supply._type s → Supply.get_type_str s = Raise KeyError).
Proof.
  unfold Supply.get_type_str.
  assert (Supply.TYPES.*1 = seqZ 1 34) as Hkeys by reflexivity.
  pose proof (dict_get_is_ok Supply.TYPES (Supply._type s)) as Hok.
  rewrite Hkeys, elem_of_seqZ in Hok. split; intros Hs.
  - destruct (dict_get Supply.TYPES (Supply._type s)) as [typ|e]; [by exists typ|].
    simpl in Hok. assert (false = true) by (apply Hok; lia). done.
  - apply dict_get_KeyError.
    destruct (is_ok (dict_get Supply.TYPES (Supply._type s))); [|done].
    assert (1 ≤ Supply._type s < 1 + 34) by (by apply Hok). lia.
Qed.

(** X9: the unit codes 5, 6, 9 and 10 and the class code 2 lie inside the
    range of their table and have no text: they raise KeyError, as every
    code outside the range does. *)
Theorem unit_and_class_domain (s : Supply.t) :
  (is_ok (_get_unit_str s) = true
   ↔ 1 ≤ Supply._unit s ≤ 19 ∧ ¬ 5 ≤ Supply._unit s ≤ 6 ∧ ¬ 9 ≤ Supply._unit s ≤ 10) ∧
  (is_ok (_get_classes_str s) = true
   ↔ Supply._class s = 1 ∨ Supply._class s = 3 ∨ Supply._class s = 4) ∧
  (is_ok (_get_unit_str s) = false → _get_unit_str s = Raise KeyError) ∧
  (is_ok (_get_classes_str s) = false → _get_classes_str s = Raise KeyError).
Proof.
  unfold _get_unit_str, _get_classes_str.
  pose proof (dict_get_is_ok UNITS (Supply._unit s)) as Hu.
  pose proof (dict_get_is_ok CLASSES (Supply._class s)) as Hc.
  change (UNITS.*1) with [1; 2; 3; 4; 7; 8; 11; 12; 13; 14; 15; 16; 17; 18; 19] in Hu.
  change (CLASSES.*1) with [1; 3; 4] in Hc.
  rewrite !elem_of_cons, elem_of_nil in Hu. rewrite !elem_of_cons, elem_of_nil in Hc.
  split; [rewrite Hu; lia|]. split; [rewrite Hc; lia|].
  split; apply dict_get_KeyError.
Qed.

(** ** Parts that make a rule raise *)

Lemma get_type_str_KeyError (s : Supply.t) :
  Supply._type s < 1 ∨ 34 < Supply._type s → Supply.get_type_str s = Raise KeyError.
Proof.
  intros Hs. unfold Supply.get_type_str. apply dict_get_KeyError.
  pose proof (dict_get_is_ok Supply.TYPES (Supply._type s)) as Hok.
  change (Supply.TYPES.*1) with (seqZ 1 34) in Hok. rewrite elem_of_seqZ in Hok.
  destruct (is_ok (dict_get Supply.TYPES (Supply._type s))); [|done].
  assert (1 ≤ Supply._type s < 1 + 34) by (by apply Hok). lia.
Qed.

Lemma lookup_Some_size {V} (m : gmap string V) (k : string) (v : V) :
  m !! k = Some v → bool_decide (size m = 0%nat) = false.
Proof.
  intros Hk. apply bool_decide_eq_false_2. intros Hsize.
  apply map_size_empty_iff in Hsize. subst m. by rewrite lookup_empty in Hk.
Qed.

(** X10: a rule with a [type] sub-predicate raises KeyError on a supply whose
    type code has no text, once its host and name sub-predicates hold, and
    the evaluation of a rule list that reaches such a rule raises with it. *)
Theorem matches_unknown_type (self : Rule) (s : Supply.t) (h : string)
    (m : gmap string mval) (v : mval) (rest : list Rule) :
  match_ self = Some m → m !! "type" = Some v →
  host_passes m h = true →
  (m !! "name" = None ∨ ∃ n, m !! "name" = Some (MStr n) ∧ str_in n (Supply._name s) = true) →
  Supply._type s < 1 ∨ 34 < Supply._type s →
  matches self s h = Raise KeyError ∧
  apply_rules s h (self :: rest) = Raise KeyError.
Proof.
  intros Hm Hty Hhost Hname Hcode.
  assert (matches self s h = Raise KeyError) as Hraise.
  { unfold matches. rewrite Hm, (lookup_Some_size _ _ _ Hty), Hhost. cbn [negb].
    destruct Hname as [->|(n & -> & Hn)].
    - rewrite bind_Ok. cbn [negb]. rewrite Hty. simpl get_type_str.
      by rewrite (get_type_str_KeyError s Hcode).
    - cbn [py_in get_name Supply_walkable]. rewrite Hn, bind_Ok. cbn [negb].
      rewrite Hty. simpl get_type_str. by rewrite (get_type_str_KeyError s Hcode). }
  split; [exact Hraise|]. unfold apply_rules. cbn [apply_rules_from].
  by rewrite Hraise.
Qed.

Lemma matches_unknown_type_witness :
  match_ (rule toner_or_ink false None None 2) = Some toner_or_ink ∧
  toner_or_ink !! "type" = Some (MList [MStr "toner"; MStr "ink"]) ∧
  host_passes toner_or_ink "printer1" = true ∧
  (toner_or_ink !! "name" = None
   ∨ ∃ n, toner_or_ink !! "name" = Some (MStr n)
          ∧ str_in n (Supply._name unknown_supply) = true) ∧
  (Supply._type unknown_supply < 1 ∨ 34 < Supply._type unknown_supply) ∧
  matches (rule toner_or_ink false None None 2) unknown_supply "printer1"
  = Raise KeyError ∧
  apply_rules unknown_supply "printer1" (rule toner_or_ink false None None 2 :: stop_rules)
  = Raise KeyError.
Proof.
  assert (Supply._type unknown_supply < 1 ∨ 34 < Supply._type unknown_supply) as Hcode
    by (right; simpl; lia).
  split; [reflexivity|]. split; [reflexivity|]. split; [reflexivity|].
  split; [by left|]. split; [exact Hcode|].
  exact (matches_unknown_type (rule toner_or_ink false None None 2) unknown_supply "printer1"
           toner_or_ink _ stop_rules eq_refl eq_refl eq_refl (or_introl eq_refl) Hcode).
Defined.

Lemma dict_get_Ok_elem {V} (d : list (Z * V)) (k : Z) (v : V) :
  dict_get d k = Ok v → v ∈ d.*2.
Proof.
  induction d as [|[k0 v0] d IH]; simpl; [done|].
  destruct (k0 =? k).
  - intros [= ->]. apply list_elem_of_here.
  - intros Hd. by apply list_elem_of_further, IH.
Qed.

Lemma no_supply_type_contains_tray :
  forallb (fun typ => negb (str_in "tray" typ)) Supply.TYPES.*2 = true.
Proof. vm_compute. reflexivity. Qed.

(** X11: a rule whose match section is [type: tray] alone matches every tray,
    on every host, and no supply whose type code has a text. *)
Theorem matches_type_tray (self : Rule) (h : string) :
  match_ self = Some any_tray →
  (∀ tr : Tray.t, matches self tr h = Ok true) ∧
  (∀ s : Supply.t, 1 ≤ Supply._type s ≤ 34 → matches self s h = Ok false).
Proof.
  intros Hm. unfold matches. rewrite Hm. split.
  - intros tr. reflexivity.
  - intros s Hs.
    change (bool_decide (size any_tray = 0%nat)) with false.
    change (host_passes any_tray h) with true.
    change (any_tray !! "name") with (@None mval).
    change (any_tray !! "type") with (Some (MStr "tray")).
    cbn [negb]. rewrite bind_Ok. cbn [negb get_type_str Supply_walkable].
    destruct (Supply.get_type_str s) as [typ|e] eqn:Hty.
    + rewrite bind_Ok. cbn [py_in].
      pose proof no_supply_type_contains_tray as Hall. rewrite forallb_forall in Hall.
      apply dict_get_Ok_elem, list_elem_of_In, Hall in Hty.
      apply negb_true_iff in Hty. by rewrite Hty.
    + pose proof (dict_get_is_ok Supply.TYPES (Supply._type s)) as Hok.
      change (Supply.TYPES.*1) with (seqZ 1 34) in Hok. rewrite elem_of_seqZ in Hok.
      unfold Supply.get_type_str in Hty. rewrite Hty in Hok. simpl in Hok.
      assert (false = true) by (apply Hok; lia). done.
Qed.

Lemma matches_type_tray_witness :
  match_ (rule any_tray false None (Some 5) 2) = Some any_tray ∧
  (∀ tr : Tray.t, matches (rule any_tray false None (Some 5) 2) tr "printer1" = Ok true) ∧
  (∀ s : Supply.t, 1 ≤ Supply._type s ≤ 34 →
                   matches (rule any_tray false None (Some 5) 2) s "printer1" = Ok false).
Proof.
  split; [reflexivity|].
  exact (matches_type_tray (rule any_tray false None (Some 5) 2) "printer1" eq_refl).
Defined.

Lemma of_int_raises (n : Z) (e : exn) : Float.of_int n = Raise e → e = OverflowError.
Proof.
  unfold Float.of_int. destruct (binary_normalize _ _ _ _ _); congruence.
Qed.

(** X12: against a rule with a threshold other than zero, a supply of
    capacity 0 whose level is not a sentinel makes [Supply.check] raise:
    ZeroDivisionError, or OverflowError when the level is too large for a
    float. *)
Theorem Supply_check_capacity_zero (s : Supply.t) (rule : Rule) :
  Supply._capacity s = 0 →
  Supply._level s ≠ -3 → Supply._level s ≠ -2 →
  threshold_truthy rule = true →
  Supply.check s rule = Raise ZeroDivisionError ∨
  Supply.check s rule = Raise OverflowError.
Proof.
  intros Hcap H3 H2 Hth. unfold Supply.check, Supply.percent.
  apply Z.eqb_neq in H3, H2. rewrite H3, H2, Hth, Hcap. cbn [negb].
  destruct (Float.of_int (Supply._level s)) as [l|e] eqn:Hl.
  - left. reflexivity.
  - right. by rewrite (of_int_raises _ _ Hl).
Qed.

Lemma Supply_check_capacity_zero_witness :
  Supply._capacity empty_capacity = 0 ∧
  Supply._level empty_capacity ≠ -3 ∧ Supply._level empty_capacity ≠ -2 ∧
  threshold_truthy (rule toner_or_ink false (Some f70) None 2) = true ∧
  (Supply.check empty_capacity (rule toner_or_ink false (Some f70) None 2)
   = Raise ZeroDivisionError ∨
   Supply.check empty_capacity (rule toner_or_ink false (Some f70) None 2)
   = Raise OverflowError).
Proof.
  assert (Supply._level empty_capacity ≠ -3) as H3 by (simpl; lia).
  assert (Supply._level empty_capacity ≠ -2) as H2 by (simpl; lia).
  split; [reflexivity|]. split; [exact H3|]. split; [exact H2|]. split; [reflexivity|].
  exact (Supply_check_capacity_zero empty_capacity
           (rule toner_or_ink false (Some f70) None 2) eq_refl H3 H2 eq_refl).
Defined.

(** ** The range of apply_rules *)

Lemma apply_rules_from_range {A} `{SNMPWalkable A} (item : A) (host : string)
    (rule_list : list Rule) (status st : Z) :
  apply_rules_from item host status rule_list = Ok st →
  st = status ∨ ∃ r, r ∈ rule_list ∧ severity r = st.
Proof.
  revert status. induction rule_list as [|r rest IH]; intros status; simpl.
  - intros [= ->]. by left.
  - assert (∀ status', apply_rules_from item host status' rest = Ok st →
                       status' = status ∨ status' = severity r →
                       st = status ∨ ∃ r0, r0 ∈ r :: rest ∧ severity r0 = st) as Hstep.
    { intros status' Hrun Hs. destruct (IH _ Hrun) as [->|(r0 & Hin & Hsev)].
      - destruct Hs as [->| ->]; [by left|]. right. exists r.
        split; [apply list_elem_of_here | done].
      - right. exists r0. split; [by apply list_elem_of_further | done]. }
    destruct (matches r item host) as [[|]|e]; simpl; [| eauto | done].
    destruct (check item r) as [ok|e]; simpl; [|done].
    destruct (negb ok && (severity r >? status)); destruct (stop r); eauto.
    + intros [= <-]. right. exists r. split; [apply list_elem_of_here | done].
    + intros [= <-]. by left.
Qed.

(** X13: a status that [apply_rules] returns is never negative, and it is 0
    or the severity of one of the rules. *)
Theorem apply_rules_range {A} `{SNMPWalkable A} (item : A) (host : string)
    (rule_list : list Rule) (st : Z) :
  apply_rules item host rule_list = Ok st →
  0 ≤ st ∧ (st = 0 ∨ ∃ r, r ∈ rule_list ∧ severity r = st).
Proof.
  intros Hrun. split.
  - by apply (apply_rules_from_mono item host rule_list 0 st).
  - by apply (apply_rules_from_range item host rule_list 0 st).
Qed.

Lemma apply_rules_range_witness :
  apply_rules black_toner "printer1" three_rules = Ok 2 ∧
  0 ≤ 2 ∧ (2 = 0 ∨ ∃ r, r ∈ three_rules ∧ severity r = 2).
Proof.
  assert (apply_rules black_toner "printer1" three_rules = Ok 2) as Hrun
    by (vm_compute; reflexivity).
  split; [exact Hrun|].
  exact (apply_rules_range black_toner "printer1" three_rules 2 Hrun).
Defined.

(** ** check_printers and the other exceptions *)

Section CheckPrintersAborts.
Variable check_printer : string → list Rule → result (gmap string dval).
Variable now : nat → string.
Variable rule_list : list Rule.

Lemma check_one_raises (w : world) (dev : string) (e : exn) :
  check_printer dev rule_list = Raise e → e ≠ EasySNMPConnectionError →
  ∃ w' e',
    check_one check_printer now rule_list w dev = (w', Some e') ∧
    ticks w' = S (ticks w) ∧
    (∀ d, d ≠ dev → database w' !! d = database w !! d) ∧
    (database w !! dev = None → e' = KeyError ∧ database w' !! dev = None).
Proof.
  intros Hc He. unfold check_one. rewrite Hc.
  assert (∀ data,
    (let '(data0, pending) :=
       match e with
       | EasySNMPConnectionError =>
           (<["info" := DInfo (offline_info dev)]> data, None)
       | _ => (data, Some e)
       end in
     match data0 !! "info" with
     | Some (DInfo info) =>
         ({| database :=
               <[dev := <["info" := DInfo (<["checked" := JStr (now (ticks w))]> info)]>
                          data0]> (database w);
             ticks := S (ticks w) |}, pending)
     | Some (DParts _) =>
         ({| database := database w; ticks := S (ticks w) |}, Some TypeError)
     | None => ({| database := database w; ticks := S (ticks w) |}, Some KeyError)
     end)
    = match data !! "info" with
      | Some (DInfo info) =>
          ({| database :=
                <[dev := <["info" := DInfo (<["checked" := JStr (now (ticks w))]> info)]>
                           data]> (database w);
              ticks := S (ticks w) |}, Some e)
      | Some (DParts _) =>
          ({| database := database w; ticks := S (ticks w) |}, Some TypeError)
      | None => ({| database := database w; ticks := S (ticks w) |}, Some KeyError)
      end) as Hfinally by (intros data; by destruct e).
  rewrite Hfinally. clear Hfinally.
  destruct (database w !! dev) as [data|] eqn:Hdev.
  - destruct (data !! "info") as [[info|parts]|]; eexists _, _;
      (split; [reflexivity|]); (split; [reflexivity|]); cbn [database];
      (split; [|done]); intros d Hd; by rewrite ?lookup_insert_ne.
  - rewrite lookup_empty. eexists _, _. split; [reflexivity|]. by repeat split.
Qed.

(** X14: an exception of [check_printer] other than the connection error
    ends the loop at its host: the hosts after it are not checked (their
    records stay and the clock is not read for them), and for a host that was
    not stored the exception that leaves is the KeyError of the [finally]
    block, with no record stored. *)
Theorem check_printers_aborts (w : world) (pre post : list string) (dev : string)
    (e : exn) :
  Forall (polled_or_offline check_printer rule_list) pre →
  check_printer dev rule_list = Raise e → e ≠ EasySNMPConnectionError →
  ∃ w1 w' e',
    check_printers check_printer now w pre rule_list = (w1, None) ∧
    check_printers check_printer now w (pre ++ dev :: post) rule_list = (w', Some e') ∧
    ticks w' = S (ticks w1) ∧
    (∀ d, d ≠ dev → database w' !! d = database w1 !! d) ∧
    (database w1 !! dev = None → e' = KeyError ∧ database w' !! dev = None).
Proof.
  intros Hpre Hc He.
  destruct (check_printers_completes check_printer now rule_list w pre Hpre)
    as (w1 & Hrun1 & _).
  destruct (check_one_raises w1 dev e Hc He) as (w' & e' & Hone & Hticks & Hkeep & Hnew).
  exists w1, w', e'. split; [exact Hrun1|].
  rewrite check_printers_app, Hrun1. simpl. rewrite Hone.
  split; [reflexivity|]. split; [exact Hticks|]. split; [exact Hkeep | exact Hnew].
Qed.
End CheckPrintersAborts.

Lemma check_printers_aborts_witness :
  Forall (polled_or_offline always_broken []) [] ∧
  always_broken "printer1" [] = Raise KeyError ∧
  KeyError ≠ EasySNMPConnectionError ∧
  ∃ w1 w' e',
    check_printers always_broken midnight empty_world [] [] = (w1, None) ∧
    check_printers always_broken midnight empty_world ([] ++ "printer1" :: ["printer2"]) []
    = (w', Some e') ∧
    ticks w' = S (ticks w1) ∧
    (∀ d, d ≠ "printer1" → database w' !! d = database w1 !! d) ∧
    (database w1 !! "printer1" = None → e' = KeyError ∧ database w' !! "printer1" = None).
Proof.
  assert (KeyError ≠ EasySNMPConnectionError) as Hne by discriminate.
  split; [constructor|]. split; [reflexivity|]. split; [exact Hne|].
  exact (check_printers_aborts always_broken midnight [] empty_world [] ["printer2"]
           "printer1" KeyError (Forall_nil_2 _) eq_refl Hne).
Defined.

(** ** Display text and alerts *)

Lemma unique_lines_from_spec (values lines : list string) :
  NoDup lines →
  ∃ more,
    unique_lines_from lines values = (lines ++ more)%list ∧
    NoDup (lines ++ more)%list ∧
    more `sublist_of` (strip <$> filter (fun v => v ≠ "") values) ∧
    ∀ x, x ∈ (lines ++ more)%list
         ↔ x ∈ lines ∨ ∃ v, v ∈ values ∧ v ≠ "" ∧ strip v = x.
Proof.
  revert lines. induction values as [|value rest IH]; intros lines Hnd; simpl.
  - exists []. rewrite app_nil_r.
    split; [done|]. split; [done|]. split; [done|].
    intros x. split; [by left|].
    intros [Hin|(v & Hv & _)]; [done | by apply elem_of_nil in Hv].
  - destruct (String.eqb_spec value "") as [->|Hne].
    + destruct (IH lines Hnd) as (more & Hrun & Hnd' & Hsub & Hmem).
      exists more. rewrite filter_cons_False by (intros Hn; by apply Hn).
      split; [done|]. split; [done|]. split; [done|].
      intros x. rewrite Hmem. split.
      * intros [Hin|(v & Hv & Hnv & Hs)]; [by left|].
        right. exists v. split; [by apply list_elem_of_further | done].
      * intros [Hin|(v & Hv & Hnv & Hs)]; [by left|].
        apply elem_of_cons in Hv as [->|Hv]; [done|].
        right. by exists v.
    + rewrite filter_cons_True by done. rewrite fmap_cons.
      case_bool_decide as Hin.
      * destruct (IH lines Hnd) as (more & Hrun & Hnd' & Hsub & Hmem).
        exists more.
        split; [done|]. split; [done|]. split; [by apply sublist_cons|].
        intros x. rewrite Hmem. split.
        -- intros [Hl|(v & Hv & Hnv & Hs)]; [by left|].
           right. exists v. split; [by apply list_elem_of_further | done].
        -- intros [Hl|(v & Hv & Hnv & Hs)]; [by left|].
           apply elem_of_cons in Hv as [->|Hv].
           ++ left. by rewrite <- Hs.
           ++ right. by exists v.
      * destruct (IH (lines ++ [strip value])%list) as (more & Hrun & Hnd' & Hsub & Hmem).
        { apply NoDup_app. split; [done|]. split; [|apply NoDup_singleton].
          intros x Hx Hx'. apply list_elem_of_singleton in Hx'. by subst x. }
        exists (strip value :: more). rewrite <- app_assoc in Hrun, Hnd', Hmem.
        simpl in Hrun, Hnd', Hmem.
        split; [done|]. split; [done|]. split; [by apply sublist_skip|].
        intros x. rewrite Hmem, elem_of_app, list_elem_of_singleton. split.
        -- intros [[Hl|Hx]|(v & Hv & Hnv & Hs)].
           ++ by left.
           ++ right. exists value. split; [apply list_elem_of_here | done].
           ++ right. exists v. split; [by apply list_elem_of_further | done].
        -- intros [Hl|(v & Hv & Hnv & Hs)]; [left; by left|].
           apply elem_of_cons in Hv as [->|Hv].
           ++ left. by right.
           ++ right. by exists v.
Qed.

Lemma unique_lines_from_keep_first (values lines : list string) :
  unique_lines_from lines values
  = (lines ++ filter (fun y => y ∉ lines)
                     (keep_first (strip <$> filter (fun v => v ≠ "") values)))%list.
Proof.
  revert lines. induction values as [|value rest IH]; intros lines; simpl.
  - by rewrite app_nil_r.
  - destruct (String.eqb_spec value "") as [->|Hne].
    + rewrite filter_cons_False by (intros Hn; by apply Hn). apply IH.
    + rewrite filter_cons_True by done. rewrite fmap_cons. cbn [keep_first].
      case_bool_decide as Hin.
      * rewrite filter_cons_False by (intros Hn; by apply Hn).
        rewrite IH. f_equal. symmetry. apply list_filter_filter_l.
        intros y Hy ->. by apply Hy.
      * rewrite filter_cons_True by done. rewrite IH, <- app_assoc. simpl.
        do 2 f_equal. rewrite list_filter_filter. apply list_filter_iff.
        intros y. rewrite elem_of_app, list_elem_of_singleton. tauto.
Qed.

Lemma keep_first_order (l pre post : list string) (x : string) :
  l = (pre ++ x :: post)%list → x ∉ pre →
  ∃ l1 l2, keep_first l = (l1 ++ x :: l2)%list ∧ ∀ y, y ∈ l1 ↔ y ∈ pre.
Proof.
  revert l. induction pre as [|p pre IH]; intros l -> Hx.
  - simpl. eexists [], _. split; [reflexivity|]. done.
  - apply not_elem_of_cons in Hx as [Hxp Hx].
    destruct (IH _ eq_refl Hx) as (l1 & l2 & Hk & Hmem).
    cbn [app keep_first]. rewrite Hk, filter_app, filter_cons_True by done.
    exists (p :: filter (fun y => y ≠ p) l1), (filter (fun y => y ≠ p) l2).
    split; [done|]. intros y.
    rewrite !elem_of_cons, list_elem_of_filter, Hmem.
    destruct (decide (y = p)); tauto.
Qed.

(** X15: the lines of the display text and of the alerts are the stripped
    non-empty walked values, each once, in the order of their first
    occurrence: a line stands after exactly the lines that occur before its
    first occurrence among the stripped values. *)
Theorem unique_lines_spec (values : list string) :
  NoDup (unique_lines values) ∧
  unique_lines values `sublist_of` (strip <$> filter (fun v => v ≠ "") values) ∧
  (∀ x, x ∈ unique_lines values ↔ ∃ v, v ∈ values ∧ v ≠ "" ∧ strip v = x) ∧
  unique_lines values = keep_first (strip <$> filter (fun v => v ≠ "") values) ∧
  ∀ pre x post,
    strip <$> filter (fun v => v ≠ "") values = (pre ++ x :: post)%list → x ∉ pre →
    ∃ l1 l2, unique_lines values = (l1 ++ x :: l2)%list ∧ ∀ y, y ∈ l1 ↔ y ∈ pre.
Proof.
  assert (unique_lines values = keep_first (strip <$> filter (fun v => v ≠ "") values))
    as Hkeep.
  { unfold unique_lines. rewrite unique_lines_from_keep_first. simpl.
    induction (keep_first _) as [|y l IH]; [done|].
    rewrite filter_cons_True by apply not_elem_of_nil. by rewrite IH. }
  unfold unique_lines in *.
  destruct (unique_lines_from_spec values [] (NoDup_nil_2)) as (more & Hrun & Hnd & Hsub & Hmem).
  rewrite Hrun in *. simpl in *. split; [done|]. split; [done|]. split; [|split; [done|]].
  - intros x. rewrite Hmem. split.
    + intros [Hx|Hx]; [by apply elem_of_nil in Hx | done].
    + intros Hx. by right.
  - intros pre x post Hsplit Hx. rewrite Hkeep. by eapply keep_first_order.
Qed.

(** The order is that of the first occurrences, not of the last. *)
Example unique_lines_first_occurrence : unique_lines ["a"; "b"; "a"] = ["a"; "b"].
Proof. reflexivity. Qed.

(** A value of whitespace alone is not empty: it leaves an empty line. *)
Example display_text_blank_value :
  unique_lines ["Ready"; "   "; ""; " Ready "] = ["Ready"; ""] ∧
  _get_display_text ["Ready"; "   "; ""; " Ready "] = "Ready, ".
Proof. split; reflexivity. Qed.

(** ** Colours *)

Lemma color_from_default (mapping : list (string * pycolor)) (name : string) :
  Forall (fun kv => kv.2 ≠ COLOR.DEFAULT) mapping →
  (color_from mapping name = COLOR.DEFAULT
   ↔ ∀ key, key ∈ mapping.*1 → str_in key name = false).
Proof.
  induction 1 as [|[x c] mapping Hc _ IH]; simpl.
  - split; [|done]. intros _ key Hkey. by apply elem_of_nil in Hkey.
  - destruct (str_in x name) eqn:Hx.
    + split; [done|]. intros Hall.
      rewrite (Hall x (list_elem_of_here _ _)) in Hx. done.
    + rewrite IH. split.
      * intros Hall key [->|Hkey]%elem_of_cons; [done | by apply Hall].
      * intros Hall key Hkey. by apply Hall, list_elem_of_further.
Qed.

(** X16: a part gets the default grey exactly when its name, in lower case,
    contains none of the keys of the colour table; a name that contains
    "black" gets the colour of that first key whatever else it contains, and
    that colour is a one-element tuple, not a string. *)
Theorem get_color_default_or_first {A} `{SNMPWalkable A} (item : A) :
  (get_color item = COLOR.DEFAULT
   ↔ ∀ key, key ∈ COLOR_MAPPING.*1 → str_in key (lower (get_name item)) = false) ∧
  (str_in "black" (lower (get_name item)) = true →
   get_color item = ColorTuple "#555555").
Proof.
  unfold get_color. split.
  - apply color_from_default. unfold COLOR_MAPPING. repeat constructor; discriminate.
  - intros Hb. unfold COLOR_MAPPING. cbn [color_from]. by rewrite Hb.
Qed.

Example get_color_black_and_cyan :
  get_color {| Supply._class := 3; Supply._type := 21;
               Supply._name := "CYAN Toner (not Black)"; Supply._unit := 19;
               Supply._capacity := 100; Supply._level := 50 |}
  = ColorTuple "#555555".
Proof. reflexivity. Qed.

(** X17: the header is critical exactly for a maximum part status of 2 or 4
    and a warning exactly for 1; the severity that the printer reports counts
    only for any other maximum, and then only when it is 1. *)
Theorem get_header_color_cases (max_status status_severity : Z) :
  (get_header_color max_status status_severity = COLOR.HEADER_CRITICAL
   ↔ max_status = 2 ∨ max_status = 4) ∧
  (get_header_color max_status status_severity = COLOR.HEADER_WARNING
   ↔ max_status = 1) ∧
  (get_header_color max_status status_severity = COLOR.HEADER_WARNING_PRINTER
   ↔ max_status ≠ 1 ∧ max_status ≠ 2 ∧ max_status ≠ 4 ∧ status_severity = 1) ∧
  (get_header_color max_status status_severity = COLOR.HEADER_DEFAULT
   ↔ max_status ≠ 1 ∧ max_status ≠ 2 ∧ max_status ≠ 4 ∧ status_severity ≠ 1).
Proof.
  unfold get_header_color.
  destruct (Z.eqb_spec max_status 1); [|destruct (Z.eqb_spec max_status 2);
    [|destruct (Z.eqb_spec max_status 4); [|destruct (Z.eqb_spec status_severity 1)]]];
    cbn [orb]; repeat split; intros; try discriminate; try lia; try done.
Qed.

(** A printer that reports itself critical, with no part at fault, keeps the
    default header. *)
Example get_header_color_self_critical : get_header_color 0 2 = COLOR.HEADER_DEFAULT.
Proof. reflexivity. Qed.

(** ** The command-line check and the poller *)

Lemma foldr_max_severity_ge (l : list Rule) (k : Z) :
  0 < k → (k ≤ foldr Z.max 0 (map severity l) ↔ ∃ r, r ∈ l ∧ k ≤ severity r).
Proof.
  intros Hk. induction l as [|r l IH]; simpl.
  - split; [lia | intros (r & Hr & _); by apply elem_of_nil in Hr].
  - split.
    + intros Hmax. destruct (Z_le_dec k (severity r)) as [Hr|Hr].
      * exists r. split; [apply list_elem_of_here | done].
      * destruct (proj1 IH) as (r' & Hin & Hle); [lia|].
        exists r'. split; [by apply list_elem_of_further | done].
    + intros (r' & Hin & Hle). apply elem_of_cons in Hin as [->|Hin]; [lia|].
      assert (k ≤ foldr Z.max 0 (map severity l)) by (apply IH; by exists r'). lia.
Qed.

Lemma filter_length_pos {X} (f : X → bool) (l : list X) :
  List.filter f l ≠ [] ↔ ∃ x, x ∈ l ∧ f x = true.
Proof.
  induction l as [|y l IH]; simpl.
  - split; [done | intros (x & Hx & _); by apply elem_of_nil in Hx].
  - destruct (f y) eqn:Hy.
    + split; [|done]. intros _. exists y. split; [apply list_elem_of_here | done].
    + rewrite IH. split.
      * intros (x & Hx & Hfx). exists x. split; [by apply list_elem_of_further | done].
      * intros (x & Hx & Hfx). apply elem_of_cons in Hx as [->|Hx]; [congruence|].
        by exists x.
Qed.

Section CheckRulesFacts.
Context {A : Type} `{SNMPWalkable A}.
Variable item : A.
Variable host : string.
Variable sev : Z.

Lemma matched_and_violated_cons (r : Rule) (rest : list Rule) :
  matched_and_violated item host (r :: rest)
  = ((if matched item host r && violated item r then [r] else [])
     ++ (if matched item host r && stop r then []
         else matched_and_violated item host rest))%list.
Proof.
  unfold matched_and_violated. cbn [considered].
  destruct (matched item host r && stop r); cbn [List.filter];
    destruct (matched item host r && violated item r); by rewrite ?app_nil_r.
Qed.

Lemma check_rules_part_lines (rules : list Rule) :
  1 ≤ sev →
  Forall (evaluates item host) (considered item host rules) →
  (∀ r, r ∈ matched_and_violated item host rules → sev ≤ severity r → severity r ≤ 2) →
  ∃ lines,
    check_rules_part item host sev rules = (lines, None) ∧
    length lines
    = length (List.filter (fun r => sev <=? severity r)
                          (matched_and_violated item host rules)).
Proof.
  intros Hsev. induction rules as [|r rest IH]; intros Hev Hsevs.
  - by exists [].
  - rewrite matched_and_violated_cons in *. cbn [check_rules_part considered] in *.
    assert (evaluates item host r ∧
            (matched item host r && stop r = false →
             Forall (evaluates item host) (considered item host rest)))
      as [[m [Hm Hc]] Hrest].
    { destruct (matched item host r && stop r); inversion Hev; subst; by split. }
    assert (matched item host r = m) as Hmd.
    { unfold matched. rewrite Hm. by destruct m. }
    rewrite Hm, Hmd in *. destruct m; cbn [andb] in *.
    + destruct (Hc eq_refl) as [ok Hok]. rewrite Hok.
      assert (violated item r = negb ok) as Hvd.
      { unfold violated. rewrite Hok. by destruct ok. }
      rewrite Hvd in *.
      assert (∃ lines,
        (if (if ok then 0 else severity r) >=? sev
         then status ← (if ok then dict_get SEVERITY 0
                        else dict_get SEVERITY (if ok then 0 else severity r));
              Ok ["[" +:+ rjust4 status +:+ "] (" +:+ name r +:+ ") => " +:+ get_name item]
         else Ok []) = Ok lines ∧
        length lines
        = length (List.filter (fun r => sev <=? severity r)
                              (if negb ok then [r] else []))) as (lines & -> & Hlen).
      { destruct ok; cbn [negb List.filter].
        - destruct (Z.geb_spec 0 sev); [lia|]. by exists [].
        - destruct (Z.geb_spec (severity r) sev) as [Hge|Hlt].
          + assert (severity r = 1 ∨ severity r = 2) as [Hr|Hr].
            { assert (severity r ≤ 2); [|lia]. apply Hsevs; [|lia].
              apply elem_of_app. left. cbn [negb]. apply list_elem_of_here. }
            * rewrite Hr. eexists. split; [reflexivity|].
              destruct (Z.leb_spec sev 1); [done|lia].
            * rewrite Hr. eexists. split; [reflexivity|].
              destruct (Z.leb_spec sev 2); [done|lia].
          + exists []. split; [done|]. destruct (Z.leb_spec sev (severity r)); [lia|done]. }
      destruct (stop r).
      * exists lines. split; [done|]. by rewrite app_nil_r.
      * destruct IH as (more & Hrun & Hmore).
        { by apply Hrest. }
        { intros r0 Hin. apply Hsevs, elem_of_app. by right. }
        rewrite Hrun. exists (lines ++ more)%list. split; [done|].
        by rewrite List.filter_app, !length_app, Hlen, Hmore.
    + destruct IH as (more & Hrun & Hmore).
      { by apply Hrest. }
      { intros r0 Hin. by apply Hsevs. }
      exists more. by split.
Qed.

(** X18: for a part whose rules raise nothing and give the violations at
    severity [sev] or more a severity of at most 2, the command-line check
    at a minimum severity [sev] of 1 or more prints one line for each
    matching, violated rule of that severity up to the first matching stop
    rule, and it prints a line exactly when the status that the poller gives
    the part is [sev] or more. *)
Theorem check_rules_agrees_with_apply_rules (rules : list Rule) :
  1 ≤ sev →
  Forall (evaluates item host) (considered item host rules) →
  (∀ r, r ∈ matched_and_violated item host rules → sev ≤ severity r → severity r ≤ 2) →
  ∃ lines st,
    check_rules_part item host sev rules = (lines, None) ∧
    apply_rules item host rules = Ok st ∧
    length lines
    = length (List.filter (fun r => sev <=? severity r)
                          (matched_and_violated item host rules)) ∧
    (lines ≠ [] ↔ sev ≤ st).
Proof.
  intros Hsev Hev Hsevs.
  destruct (check_rules_part_lines rules Hsev Hev Hsevs) as (lines & Hrun & Hlen).
  exists lines, (max_violated_severity item host rules).
  split; [exact Hrun|]. split; [by apply apply_rules_from_spec|]. split; [exact Hlen|].
  unfold max_violated_severity. rewrite foldr_max_severity_ge by lia.
  split.
  - intros Hne.
    assert (List.filter (fun r => sev <=? severity r)
                        (matched_and_violated item host rules) ≠ []) as Hfil.
    { intros Hnil. rewrite Hnil in Hlen. by destruct lines. }
    apply filter_length_pos in Hfil as (r & Hin & Hr).
    exists r. split; [done | by apply Z.leb_le].
  - intros (r & Hin & Hr) ->. simpl in Hlen. symmetry in Hlen.
    apply length_zero_iff_nil in Hlen.
    assert (List.filter (fun r => sev <=? severity r)
                        (matched_and_violated item host rules) ≠ []) as Hfil.
    { apply filter_length_pos. exists r. split; [done | by apply Z.leb_le]. }
    done.
Qed.
End CheckRulesFacts.

Example check_rules_three :
  check_rules_part black_toner "printer1" 1 three_rules
  = (["[CRIT] (rule) => Black Toner"; "[WARN] (rule) => Black Toner"], None).
Proof. vm_compute. reflexivity. Qed.

(** ** The loop of check_printer *)

Lemma first_occurrences_spec (parts : list (Supply.t + Tray.t)) (seen : gset string) :
  NoDup (get_name <$> first_occurrences seen parts) ∧
  (∀ k, k ∈ first_occurrences seen parts → get_name k ∉ seen) ∧
  (∀ s, s ∈ parts →
        get_name s ∈ seen ∨ get_name s ∈ (get_name <$> first_occurrences seen parts)) ∧
  (∀ k, k ∈ first_occurrences seen parts →
        ∃ pre post, parts = (pre ++ k :: post)%list ∧ get_name k ∉ (get_name <$> pre)).
Proof.
  revert seen. induction parts as [|s rest IH]; intros seen; cbn [first_occurrences].
  - split; [constructor|]. split; [intros k Hk; by apply elem_of_nil in Hk|].
    split; intros x Hx; by apply elem_of_nil in Hx.
  - case_bool_decide as Hseen.
    + destruct (IH seen) as (Hnd & Hfresh & Hcover & Hfirst).
      split; [done|]. split; [done|]. split.
      * intros x [->|Hx]%elem_of_cons; [by left | by apply Hcover].
      * intros k Hk. destruct (Hfirst k Hk) as (pre & post & -> & Hpre).
        exists (s :: pre), post. split; [done|]. rewrite fmap_cons.
        intros [Heq|Hin]%elem_of_cons; [|done].
        apply (Hfresh k Hk). by rewrite Heq.
    + destruct (IH (seen ∪ {[get_name s]})) as (Hnd & Hfresh & Hcover & Hfirst).
      split; [|split; [|split]].
      * rewrite fmap_cons. apply NoDup_cons. split; [|done].
        intros (k & Hname & Hk)%list_elem_of_fmap.
        apply (Hfresh k Hk). rewrite <- Hname.
        apply elem_of_union. right. by apply elem_of_singleton.
      * intros k [->|Hk]%elem_of_cons; [done|].
        intros Hin. apply (Hfresh k Hk), elem_of_union. by left.
      * intros x [->|Hx]%elem_of_cons.
        -- right. rewrite fmap_cons. apply list_elem_of_here.
        -- destruct (Hcover x Hx) as [Hin|Hin].
           ++ apply elem_of_union in Hin as [Hin|Hin]; [by left|].
              right. rewrite fmap_cons. apply elem_of_singleton in Hin. rewrite Hin.
              apply list_elem_of_here.
           ++ right. rewrite fmap_cons. by apply list_elem_of_further.
      * intros k [->|Hk]%elem_of_cons.
        -- exists [], rest. split; [done|]. apply not_elem_of_nil.
        -- destruct (Hfirst k Hk) as (pre & post & -> & Hpre).
           exists (s :: pre), post. split; [done|]. rewrite fmap_cons.
           intros [Heq|Hin]%elem_of_cons; [|done].
           apply (Hfresh k Hk), elem_of_union. right. by apply elem_of_singleton.
Qed.

Lemma first_occurrences_sublist (parts : list (Supply.t + Tray.t)) (seen : gset string) :
  first_occurrences seen parts `sublist_of` parts.
Proof.
  revert seen. induction parts as [|s rest IH]; intros seen; cbn [first_occurrences].
  - done.
  - case_bool_decide; [by apply sublist_cons | by apply sublist_skip].
Qed.

Lemma supply_type_not_tray :
  forallb (fun typ => negb (String.eqb typ "tray")) Supply.TYPES.*2 = true.
Proof. vm_compute. reflexivity. Qed.

Lemma part_type_tray (s : Supply.t + Tray.t) (typ : string) :
  get_type_str s = Ok typ → String.eqb typ "tray" = is_tray s.
Proof.
  destruct s as [x|x]; simpl.
  - intros Hty. pose proof supply_type_not_tray as Hall. rewrite forallb_forall in Hall.
    apply dict_get_Ok_elem, list_elem_of_In, Hall in Hty. by apply negb_true_iff in Hty.
  - by intros [= <-].
Qed.

Section CheckPartsFacts.
Variable h : string.
Variable rule_list : list Rule.
Variable capitalized : string → string.

Lemma check_parts_entries (parts : list (Supply.t + Tray.t)) (o0 o : outputs) :
  check_parts h rule_list capitalized parts o0 = Ok o →
  ∃ entries : list kept_part,
    map (fun e : kept_part => e.1.1) entries = first_occurrences (name_set o0) parts ∧
    Forall (fun e : kept_part =>
              apply_rules e.1.1 h rule_list = Ok e.1.2 ∧ part_get_data e.1.1 = Ok e.2)
           entries ∧
    out_supplies o = (out_supplies o0 ++ stored_supplies capitalized entries)%list ∧
    out_trays o = (out_trays o0 ++ stored_trays capitalized entries)%list ∧
    max_status o = foldr Z.max (max_status o0) (map (fun e : kept_part => e.1.2) entries) ∧
    err_parts o = (err_parts o0 ++ violations entries)%list.
Proof.
  revert o0. induction parts as [|s rest IH]; intros o0; cbn [check_parts first_occurrences].
  - intros [= <-]. exists []. unfold stored_supplies, stored_trays, violations. simpl.
    by rewrite !app_nil_r.
  - destruct (bool_decide (get_name s ∈ name_set o0)); [apply IH|].
    destruct (get_type_str s) as [typ|e] eqn:Hty; [|done]. rewrite bind_Ok.
    destruct (apply_rules s h rule_list) as [status|e] eqn:Hst; [|done]. rewrite bind_Ok.
    destruct (part_get_data s) as [d|e] eqn:Hd; [|done]. rewrite bind_Ok.
    rewrite (part_type_tray s typ Hty).
    assert ((if status >? max_status o0 then status else max_status o0)
            = Z.max (max_status o0) status) as ->
      by (destruct (Z.gtb_spec status (max_status o0)); lia).
    destruct (is_tray s) eqn:Htray; intros Hrun;
      destruct (IH _ Hrun) as (entries & Hkept & Hall & Hsup & Htr & Hmax & Herr);
      cbn [name_set out_supplies out_trays max_status err_parts] in *;
      exists ((s, status, d) :: entries);
      unfold stored_supplies, stored_trays, violations in *; cbn [map List.filter fst snd];
      rewrite Htray; cbn [negb map];
      (split; [by rewrite Hkept|]); (split; [by constructor|]);
      rewrite Hsup, Htr, Hmax, Herr, foldr_max_init;
      destruct (status >? 0); cbn [map]; by rewrite <- ?app_assoc.
Qed.

(** X19: the loop of [check_printer] keeps, of the parts with one name, the
    first alone, and the kept parts stand in the order of the parts; the
    maximum status is the largest status that [apply_rules] gives a kept
    part, and 0 when none is positive; [err_parts] lists, in the order of the
    parts, the name and status of the kept parts whose status is positive. *)
Theorem check_parts_keeps_first (parts : list (Supply.t + Tray.t)) (o : outputs) :
  check_parts h rule_list capitalized parts no_outputs = Ok o →
  ∃ entries : list kept_part,
    let kept := map (fun e : kept_part => e.1.1) entries in
    kept = first_occurrences ∅ parts ∧
    kept `sublist_of` parts ∧
    NoDup (get_name <$> kept) ∧
    (∀ s, s ∈ parts → get_name s ∈ (get_name <$> kept)) ∧
    (∀ k, k ∈ kept →
          ∃ pre post, parts = (pre ++ k :: post)%list ∧ get_name k ∉ (get_name <$> pre)) ∧
    Forall (fun e : kept_part => apply_rules e.1.1 h rule_list = Ok e.1.2) entries ∧
    max_status o = foldr Z.max 0 (map (fun e : kept_part => e.1.2) entries) ∧
    err_parts o = violations entries.
Proof.
  intros Hrun.
  destruct (check_parts_entries parts no_outputs o Hrun)
    as (entries & Hkept & Hall & _ & _ & Hmax & Herr).
  destruct (first_occurrences_spec parts ∅) as (Hnd & _ & Hcover & Hfirst).
  exists entries. cbn zeta. rewrite Hkept. cbn [name_set no_outputs] in *.
  split; [done|]. split; [apply first_occurrences_sublist|].
  split; [done|]. split.
  { intros s Hs. destruct (Hcover s Hs) as [Hin|Hin]; [|done].
    by apply elem_of_empty in Hin. }
  split; [done|]. split.
  { eapply Forall_impl; [exact Hall|]. by intros e [He _]. }
  by split.
Qed.

(** X20: the dict of every kept supply goes to [out_supplies] and that of
    every kept tray to [out_trays], in the order of the parts; in it [status]
    is the status that [apply_rules] gave (for a tray it replaces the raw
    status code of [get_data]), [rgb] the colour of the part and [name] the
    display name. *)
Theorem check_parts_routes (parts : list (Supply.t + Tray.t)) (o : outputs) :
  check_parts h rule_list capitalized parts no_outputs = Ok o →
  ∃ entries : list kept_part,
    map (fun e : kept_part => e.1.1) entries = first_occurrences ∅ parts ∧
    Forall (fun e : kept_part =>
              apply_rules e.1.1 h rule_list = Ok e.1.2 ∧ part_get_data e.1.1 = Ok e.2)
           entries ∧
    out_supplies o = stored_supplies capitalized entries ∧
    out_trays o = stored_trays capitalized entries ∧
    ∀ e, e ∈ entries →
         stored_dict capitalized e !! "status" = Some (VInt e.1.2) ∧
         stored_dict capitalized e !! "rgb" = Some (VColor (get_color e.1.1)) ∧
         stored_dict capitalized e !! "name" = Some (VStr (capitalized (get_name e.1.1))).
Proof.
  intros Hrun.
  destruct (check_parts_entries parts no_outputs o Hrun)
    as (entries & Hkept & Hall & Hsup & Htr & _ & _).
  exists entries. split; [done|]. split; [done|]. split; [done|]. split; [done|].
  intros e _. unfold stored_dict.
  rewrite lookup_insert_eq, lookup_insert_ne, lookup_insert_eq by done.
  by rewrite !lookup_insert_ne, lookup_insert_eq by done.
Qed.
End CheckPartsFacts.

Lemma check_rules_agrees_with_apply_rules_witness :
  1 ≤ 1 ∧
  Forall (evaluates black_toner "printer1") (considered black_toner "printer1" three_rules) ∧
  (∀ r, r ∈ matched_and_violated black_toner "printer1" three_rules →
        1 ≤ severity r → severity r ≤ 2) ∧
  ∃ lines st,
    check_rules_part black_toner "printer1" 1 three_rules = (lines, None) ∧
    apply_rules black_toner "printer1" three_rules = Ok st ∧
    length lines
    = length (List.filter (fun r => 1 <=? severity r)
                          (matched_and_violated black_toner "printer1" three_rules)) ∧
    (lines ≠ [] ↔ 1 ≤ st).
Proof.
  assert (Forall (evaluates black_toner "printer1")
                 (considered black_toner "printer1" three_rules)) as Hev.
  { change (considered black_toner "printer1" three_rules) with three_rules.
    repeat constructor.
    - exists true. split; [vm_compute; reflexivity|]. intros _. exists true.
      vm_compute. reflexivity.
    - exists true. split; [vm_compute; reflexivity|]. intros _. exists false.
      vm_compute. reflexivity.
    - exists true. split; [vm_compute; reflexivity|]. intros _. exists false.
      vm_compute. reflexivity. }
  assert (∀ r, r ∈ matched_and_violated black_toner "printer1" three_rules →
               1 ≤ severity r → severity r ≤ 2) as Hsevs.
  { intros r Hin _. apply matched_and_violated_subset in Hin.
    repeat (apply elem_of_cons in Hin as [->|Hin]; [simpl; lia|]).
    by apply elem_of_nil in Hin. }
  split; [lia|]. split; [exact Hev|]. split; [exact Hsevs|].
  exact (check_rules_agrees_with_apply_rules black_toner "printer1" 1 three_rules
           ltac:(lia) Hev Hsevs).
Defined.

Lemma check_parts_keeps_first_witness :
  check_parts "printer1" three_rules (fun n => n) example_parts no_outputs
  = Ok example_outputs ∧
  ∃ entries : list kept_part,
    let kept := map (fun e : kept_part => e.1.1) entries in
    kept = first_occurrences ∅ example_parts ∧
    kept `sublist_of` example_parts ∧
    NoDup (get_name <$> kept) ∧
    (∀ s, s ∈ example_parts → get_name s ∈ (get_name <$> kept)) ∧
    (∀ k, k ∈ kept →
          ∃ pre post, example_parts = (pre ++ k :: post)%list
                      ∧ get_name k ∉ (get_name <$> pre)) ∧
    Forall (fun e : kept_part => apply_rules e.1.1 "printer1" three_rules = Ok e.1.2)
           entries ∧
    max_status example_outputs = foldr Z.max 0 (map (fun e : kept_part => e.1.2) entries) ∧
    err_parts example_outputs = violations entries.
Proof.
  assert (check_parts "printer1" three_rules (fun n => n) example_parts no_outputs
          = Ok example_outputs) as Hrun by (vm_compute; reflexivity).
  split; [exact Hrun|].
  exact (check_parts_keeps_first "printer1" three_rules (fun n => n) example_parts
           example_outputs Hrun).
Defined.

Lemma check_parts_routes_witness :
  check_parts "printer1" three_rules (fun n => n) example_parts no_outputs
  = Ok example_outputs ∧
  ∃ entries : list kept_part,
    map (fun e : kept_part => e.1.1) entries = first_occurrences ∅ example_parts ∧
    Forall (fun e : kept_part =>
              apply_rules e.1.1 "printer1" three_rules = Ok e.1.2
              ∧ part_get_data e.1.1 = Ok e.2)
           entries ∧
    out_supplies example_outputs = stored_supplies (fun n => n) entries ∧
    out_trays example_outputs = stored_trays (fun n => n) entries ∧
    ∀ e, e ∈ entries →
         stored_dict (fun n => n) e !! "status" = Some (VInt e.1.2) ∧
         stored_dict (fun n => n) e !! "rgb" = Some (VColor (get_color e.1.1)) ∧
         stored_dict (fun n => n) e !! "name" = Some (VStr (get_name e.1.1)).
Proof.
  assert (check_parts "printer1" three_rules (fun n => n) example_parts no_outputs
          = Ok example_outputs) as Hrun by (vm_compute; reflexivity).
  split; [exact Hrun|].
  exact (check_parts_routes "printer1" three_rules (fun n => n) example_parts
           example_outputs Hrun).
Defined.

(** The second toner is dropped, and the tray's record holds the rule status
    where [get_data] had the raw status code 28. *)
Example check_parts_example :
  length (out_supplies example_outputs) = 2%nat ∧
  max_status example_outputs = 2 ∧
  err_parts example_outputs = [("Black Toner", 2)] ∧
  Tray_get_data (tray 28) !! "status" = Some (VInt 28) ∧
  (out_trays example_outputs !! 0%nat) ≫= (fun d => d !! "status") = Some (VInt 0).
Proof. repeat split; vm_compute; reflexivity. Qed.

(** ** Part dicts *)

Lemma Supply_get_level_capacity_zero (s : Supply.t) :
  Supply._capacity s = 0 → Supply._level s ≠ -3 → Supply._level s ≠ -2 →
  Supply_get_level s = Raise ZeroDivisionError ∨
  Supply_get_level s = Raise OverflowError.
Proof.
  intros Hcap H3 H2. unfold Supply_get_level, Supply.percent.
  apply Z.eqb_neq in H3, H2. rewrite H3, H2, Hcap.
  destruct (Float.of_int (Supply._level s)) as [l|e] eqn:Hl.
  - left. reflexivity.
  - right. by rewrite (of_int_raises _ _ Hl).
Qed.

(** X21: a supply of capacity 0 whose level is not a sentinel has no dict:
    [get_data] raises ZeroDivisionError (OverflowError for a level too large
    for a float), and the loop of [check_printer] raises when it comes to
    such a supply under a new name, whatever the rules. *)
Theorem Supply_get_data_capacity_zero (s : Supply.t) (h : string) (rule_list : list Rule)
    (capitalized : string → string) (rest : list (Supply.t + Tray.t)) (o : outputs) :
  Supply._capacity s = 0 → Supply._level s ≠ -3 → Supply._level s ≠ -2 →
  Supply._name s ∉ name_set o →
  (Supply_get_data s = Raise ZeroDivisionError ∨ Supply_get_data s = Raise OverflowError) ∧
  is_ok (check_parts h rule_list capitalized (inl s :: rest) o) = false.
Proof.
  intros Hcap H3 H2 Hnew.
  assert (Supply_get_data s = Raise ZeroDivisionError
          ∨ Supply_get_data s = Raise OverflowError) as Hraise.
  { unfold Supply_get_data.
    destruct (Supply_get_level_capacity_zero s Hcap H3 H2) as [-> | ->];
      [by left | by right]. }
  split; [exact Hraise|]. cbn [check_parts].
  rewrite bool_decide_eq_false_2 by done.
  destruct (get_type_str (inl s : Supply.t + Tray.t)) as [typ|e]; [|done]. rewrite bind_Ok.
  destruct (apply_rules (inl s : Supply.t + Tray.t) h rule_list) as [st|e]; [|done].
  rewrite bind_Ok. cbn [part_get_data]. by destruct Hraise as [-> | ->].
Qed.

Lemma Supply_get_data_capacity_zero_witness :
  Supply._capacity empty_capacity = 0 ∧
  Supply._level empty_capacity ≠ -3 ∧ Supply._level empty_capacity ≠ -2 ∧
  (Supply._name empty_capacity ∉ name_set no_outputs) ∧
  (Supply_get_data empty_capacity = Raise ZeroDivisionError
   ∨ Supply_get_data empty_capacity = Raise OverflowError) ∧
  is_ok (check_parts "printer1" [] (fun n => n) (inl empty_capacity :: example_parts)
                     no_outputs) = false.
Proof.
  assert (Supply._level empty_capacity ≠ -3) as H3 by (simpl; lia).
  assert (Supply._level empty_capacity ≠ -2) as H2 by (simpl; lia).
  assert (Supply._name empty_capacity ∉ name_set no_outputs) as Hnew
    by apply not_elem_of_empty.
  split; [reflexivity|]. split; [exact H3|]. split; [exact H2|]. split; [exact Hnew|].
  exact (Supply_get_data_capacity_zero empty_capacity "printer1" [] (fun n => n)
           example_parts no_outputs eq_refl H3 H2 Hnew).
Defined.

(** X22: at a sentinel level no percentage is computed: the dict of a supply
    at level -3 or -2 exists whatever its capacity, as soon as its unit, type
    and class codes have a text, with the level "OK" and 100 percent at -3
    and "NA" and no percentage at -2. *)
Theorem Supply_get_data_sentinel (s : Supply.t) :
  Supply._level s = -3 ∨ Supply._level s = -2 →
  is_ok (_get_unit_str s) = true → is_ok (Supply.get_type_str s) = true →
  is_ok (_get_classes_str s) = true →
  ∃ d, Supply_get_data s = Ok d ∧
       d !! "str_level" = Some (VStr (if Supply._level s =? -3 then "OK" else "NA")) ∧
       d !! "level_percent" = Some (if Supply._level s =? -3 then VInt 100 else VNone) ∧
       d !! "capacity" = Some (VInt (Supply._capacity s)).
Proof.
  intros Hl Hu Ht Hc. unfold Supply_get_data, Supply_get_level.
  destruct (_get_unit_str s) as [u|]; [|done].
  destruct (Supply.get_type_str s) as [t|]; [|done].
  destruct (_get_classes_str s) as [c|]; [|done].
  destruct Hl as [-> | ->]; cbn [Z.eqb Pos.eqb]; rewrite !bind_Ok; eexists;
    (split; [reflexivity|]); cbn [fst snd];
    repeat split; repeat (rewrite lookup_insert_ne by done); by rewrite lookup_insert_eq.
Qed.

Lemma Supply_get_data_sentinel_witness :
  (Supply._level staples = -3 ∨ Supply._level staples = -2) ∧
  is_ok (_get_unit_str staples) = true ∧ is_ok (Supply.get_type_str staples) = true ∧
  is_ok (_get_classes_str staples) = true ∧
  ∃ d, Supply_get_data staples = Ok d ∧
       d !! "str_level" = Some (VStr (if Supply._level staples =? -3 then "OK" else "NA")) ∧
       d !! "level_percent"
       = Some (if Supply._level staples =? -3 then VInt 100 else VNone) ∧
       d !! "capacity" = Some (VInt (Supply._capacity staples)).
Proof.
  split; [by left|]. split; [reflexivity|]. split; [reflexivity|]. split; [reflexivity|].
  exact (Supply_get_data_sentinel staples (or_introl eq_refl) eq_refl eq_refl eq_refl).
Defined.

(** ** The info record after the loop *)

Lemma set_err_parts_other (info : gmap string jval) (errs : list (string * Z))
    (k : string) :
  k ≠ "err_parts" → k ≠ "str_err_parts" → set_err_parts info errs !! k = info !! k.
Proof.
  intros H1 H2. unfold set_err_parts.
  destruct (reverse (sorted errs)) as [|first rest].
  - by rewrite !lookup_insert_ne by done.
  - destruct (Z.of_nat (length (first :: rest)) =? 1);
      by rewrite !lookup_insert_ne by done.
Qed.

(** X23: after the loop the info record holds as [max_status] the larger of
    the maximum part status and the severity that the printer reports, while
    its header colour [rgb] is chosen from the maximum part status before the
    two are merged; its other entries, apart from the error summary, are
    left as they were. *)
Theorem finish_info_spec (info : gmap string jval) (o : outputs) (severity : Z) :
  info !! "severity" = Some (JInt severity) →
  ∃ info',
    finish_info info o = Ok info' ∧
    info' !! "max_status" = Some (JInt (Z.max (max_status o) severity)) ∧
    info' !! "rgb" = Some (JStr (get_header_color (max_status o) severity)) ∧
    ∀ k, k ≠ "rgb" → k ≠ "max_status" → k ≠ "err_parts" → k ≠ "str_err_parts" →
         info' !! k = info !! k.
Proof.
  intros Hsev. unfold finish_info. rewrite Hsev. eexists. split; [reflexivity|].
  split; [|split].
  - by rewrite set_err_parts_other, lookup_insert_eq by done.
  - by rewrite set_err_parts_other, lookup_insert_ne, lookup_insert_eq by done.
  - intros k H1 H2 H3 H4. by rewrite set_err_parts_other, !lookup_insert_ne by done.
Qed.

Lemma finish_info_spec_witness :
  self_critical !! "severity" = Some (JInt 2) ∧
  ∃ info',
    finish_info self_critical no_outputs = Ok info' ∧
    info' !! "max_status" = Some (JInt (Z.max (max_status no_outputs) 2)) ∧
    info' !! "rgb" = Some (JStr (get_header_color (max_status no_outputs) 2)) ∧
    ∀ k, k ≠ "rgb" → k ≠ "max_status" → k ≠ "err_parts" → k ≠ "str_err_parts" →
         info' !! k = self_critical !! k.
Proof.
  split; [reflexivity|].
  exact (finish_info_spec self_critical no_outputs 2 eq_refl).
Defined.

(** A printer that reports itself critical with no part at fault: maximum
    status 2 under the default header colour. *)
Example finish_info_self_critical :
  ∃ info', finish_info self_critical no_outputs = Ok info' ∧
           info' !! "max_status" = Some (JInt 2) ∧
           info' !! "rgb" = Some (JStr "#eeeeee") ∧
           info' !! "str_err_parts" = Some (JStr "").
Proof. eexists. repeat split; vm_compute; reflexivity. Qed.

(** ** Further instances *)

Lemma status_str_out_of_range_witness :
  127 ≤ Tray._status (tray 200) ∧ _get_status_str (tray 200) = all_flags.
Proof.
  assert (127 ≤ Tray._status (tray 200)) as Hs by (simpl; lia).
  split; [exact Hs|]. exact (proj2 (status_str_out_of_range (tray 200)) Hs).
Defined.

Lemma get_type_str_domain_witness :
  (Supply._type unknown_supply < 1 ∨ 34 < Supply._type unknown_supply) ∧
  Supply.get_type_str unknown_supply = Raise KeyError.
Proof.
  assert (Supply._type unknown_supply < 1 ∨ 34 < Supply._type unknown_supply) as Hs
    by (right; simpl; lia).
  split; [exact Hs|]. exact (proj2 (get_type_str_domain unknown_supply) Hs).
Defined.

Lemma get_color_default_or_first_witness :
  str_in "black" (lower (get_name black_toner)) = true ∧
  get_color black_toner = ColorTuple "#555555".
Proof.
  split; [reflexivity|].
  exact (proj2 (get_color_default_or_first black_toner) eq_refl).
Defined.
